(** * AI Car Health Monitor: rule evaluation, prediction adapter, fusion
      and the balancing step of the training script.

    A shallow embedding of [app_main.py]:
    - [check_custom_rules]   (the threshold rules, lines 161-188),
    - [predict_failure]      (feature engineering and inference, 190-218),
    - the fusion block of the Detailed Analysis page (759-763),
    - the training script (Steps 2 to 6, lines 981-1039).

    Python values that reach the comparisons are ints and floats; both are
    modelled by [number]: a rational (every int and every finite double is
    one, and Python compares an int with a float exactly), an infinity or
    NaN.  Floating-point arithmetic itself (the division and the additions
    of the derived features, the maximum probability times 100) and the
    fitted scikit-learn / XGBoost objects are taken as parameters. *)

From Stdlib Require Import QArith Ascii.
From Stdlib Require OrderedTypeEx.
From Stdlib Require Import Sorted.
From stdpp Require Import gmap strings list pretty.

#[local] Set Warnings "-clear-no-such-hyp".

Local Open Scope string_scope.

(** ** Python values, exceptions, comparisons *)

Module Py.

Inductive number : Type :=
| Fin (q : Q)
| Inf (positive : bool)
| NaN.

Inductive pyval : Type :=
| PNum (n : number)
| PStr (s : string)
| PNone.

Inductive exn : Type :=
| KeyError (k : string)
| TypeError
| ValueError
| IndexError.

(** A computation that either raises or returns. *)
Definition result (A : Type) : Type := exn + A.

#[export] Instance result_ret : MRet result := λ A x, inr x.

#[export] Instance result_bind : MBind result := λ A B f m,
  match m with
  | inr a => f a
  | inl e => inl e
  end.

(** A [dict] with string keys. *)
Abbreviation dict := (gmap string pyval).

Definition Qltb (x y : Q) : bool := negb (Qle_bool y x).

(** [a < b] and [a <= b] on ints and floats: every comparison with NaN
    is false. *)
Definition num_lt (a b : number) : bool :=
  match a, b with
  | NaN, _ | _, NaN => false
  | Fin x, Fin y => Qltb x y
  | Fin _, Inf p => p
  | Inf p, Fin _ => negb p
  | Inf p, Inf q => negb p && q
  end.

Definition num_le (a b : number) : bool :=
  match a, b with
  | NaN, _ | _, NaN => false
  | Fin x, Fin y => Qle_bool x y
  | Fin _, Inf p => p
  | Inf p, Fin _ => negb p
  | Inf p, Inf q => negb p || q
  end.

Definition num_gt (a b : number) : bool := num_lt b a.
Definition num_ge (a b : number) : bool := num_le b a.

(** [v < w], [v > w]: numbers compare with numbers, strings with
    strings; anything else is a [TypeError]. *)
Definition py_lt (v w : pyval) : result bool :=
  match v, w with
  | PNum a, PNum b => inr (num_lt a b)
  | PStr s, PStr t => inr (String.ltb s t)
  | _, _ => inl TypeError
  end.

Definition py_gt (v w : pyval) : result bool :=
  match v, w with
  | PNum a, PNum b => inr (num_gt a b)
  | PStr s, PStr t => inr (String.ltb t s)
  | _, _ => inl TypeError
  end.

(** [d[k]] and [d.get(k, default)]. *)
Definition getitem (d : dict) (k : string) : result pyval :=
  match d !! k with
  | Some v => inr v
  | None => inl (KeyError k)
  end.

Definition get (d : dict) (k : string) (dflt : pyval) : pyval :=
  default dflt (d !! k).

End Py.

Import Py.

(** ** The rule evaluator *)

Module Rules.

(** Statements of the body of [check_custom_rules] mutate the local list
    [alerts] and may raise; what was appended before an exception stays
    appended.  [M A] threads the list and the outcome. *)
Definition M (A : Type) : Type := list string → list string * result A.

#[export] Instance M_ret : MRet M := λ A x alerts, (alerts, inr x).

#[export] Instance M_bind : MBind M := λ A B f m alerts,
  match m alerts with
  | (alerts', inr a) => f a alerts'
  | (alerts', inl e) => (alerts', inl e)
  end.

Definition lift {A} (r : result A) : M A := λ alerts, (alerts, r).

(** [alerts.append(x)] *)
Definition alerts_append (x : string) : M unit :=
  λ alerts, ((alerts ++ [x])%list, inr ()).

(** Expressions. *)
Definition subscript (data : dict) (k : string) : M pyval := lift (getitem data k).
Definition dict_get (data : dict) (k : string) (dflt : Q) : M pyval :=
  mret (get data k (PNum (Fin dflt))).
Definition constant (c : Q) : M pyval := mret (PNum (Fin c)).

Definition cmp_gt (e1 e2 : M pyval) : M bool :=
  e1 ≫= λ v : pyval, e2 ≫= λ w : pyval, lift (py_gt v w).
Definition cmp_lt (e1 e2 : M pyval) : M bool :=
  e1 ≫= λ v : pyval, e2 ≫= λ w : pyval, lift (py_lt v w).

(** [a or b] on two comparisons: [b] is evaluated only when [a] is
    false. *)
Definition bool_or (a b : M bool) : M bool :=
  a ≫= λ x : bool, if x then mret true else b.

(** [if c: body] *)
Definition if_stmt (c : M bool) (body : M unit) : M unit :=
  c ≫= λ b : bool, if b then body else mret ().

Definition body (data : dict) : M unit :=
  if_stmt (cmp_gt (subscript data "odometer_km") (constant 300000))
     (alerts_append "Maintenance Due / High Mileage Warning") ;;
  if_stmt (cmp_gt (subscript data "engine_temp_c") (constant 110))
     (alerts_append "Engine Overheating") ;;
  if_stmt (cmp_lt (subscript data "battery_voltage_v") (constant 12.0))
     (alerts_append "Battery Failure") ;;
  if_stmt (cmp_lt (subscript data "oil_pressure_kpa") (constant 150))
     (alerts_append "Low Oil Pressure Warning") ;;
  if_stmt (bool_or (cmp_lt (subscript data "brake_pad_wear_mm_front") (constant 3))
         (cmp_lt (dict_get data "brake_pad_wear_mm_rear" 3) (constant 3)))
     (alerts_append "Brake Pads Critically Worn") ;;
  if_stmt (cmp_lt (subscript data "suspension_health_pct") (constant 40))
     (alerts_append "Suspension Failure Risk") ;;
  if_stmt (cmp_lt (subscript data "tire_pressure_psi_fl") (constant 20))
     (alerts_append "Low Tire Pressure") ;;
  if_stmt (cmp_lt (subscript data "coolant_level_pct") (constant 30))
     (alerts_append "Coolant Critically Low") ;;
  if_stmt (cmp_lt (subscript data "brake_fluid_level_pct") (constant 20))
     (alerts_append "Brake Fluid Critically Low") ;;
  if_stmt (cmp_gt (subscript data "transmission_fluid_temp_c") (constant 110))
     (alerts_append "Transmission Overheating").

(** [alerts = []; try: body except Exception: pass; return alerts] *)
Definition check_custom_rules (data : dict) : list string :=
  fst (body data []).

End Rules.

Import Rules.

(** ** Library objects used by the adapter and the training script

    Everything that lives in pandas, NumPy, scikit-learn and XGBoost is a
    parameter: floating-point arithmetic on a column, the fitted objects,
    the pseudo-random generators. *)

Module Lib.

Class Numeric : Type := {
  (** the double denoted by the literal [1e-6] *)
  float_1e_6 : number;
  (** [a + b] and [a / b] on the cells of a one-row column; pandas
      decides by dtype whether this raises *)
  series_add : pyval → pyval → result pyval;
  series_truediv : pyval → pyval → result pyval;
  (** [proba.max()] and the product of two floats *)
  ndarray_max : list number → number;
  float_mul : number → number → number;
  (** [str(x)] of an int or a float *)
  str_number : number → string
}.

(** NumPy's legacy generator.  [RandomState seed] is a fresh generator
    built from an integer seed; [randint g high size] is
    [g.randint(0, high, size)] for [0 < high]. *)
Class Random : Type := {
  rng : Type;
  RandomState : Z → rng;
  randint : rng → nat → nat → list nat;
  randint_length g high size : length (randint g high size) = size;
  randint_bound g high size i :
    0 < high → i ∈ randint g high size → i < high
}.

(** The fitted objects pickled by the training script. *)
Record XGBClassifier : Type := {
  predict : list number → result nat;
  predict_proba : list number → result (list number)
}.

Record StandardScaler : Type := {
  transform : list (string * pyval) → result (list number)
}.

(** What the training script calls in scikit-learn and XGBoost.  [world]
    stands for whatever a run does not control: the state of NumPy's
    global generator and the scheduling of XGBoost's threads. *)
Class Learn `{!Random} : Type := {
  world : Type;
  global_rng : world → rng;
  (** [StandardScaler().fit_transform(X)] on rows laid out in column
      order *)
  scaler_fit_transform :
    list (list (string * pyval)) → result (StandardScaler * list (list number));
  (** the index sets chosen by [train_test_split(..., test_size=0.2,
      stratify=y)] with the given generator: train, test *)
  stratified_split : rng → list nat → result (list nat * list nat);
  (** [XGBClassifier(..., random_state=seed).fit(X, y)] *)
  xgb_fit : world → Z → nat → list (list number) → list nat → result XGBClassifier
}.

Record LabelEncoder : Type := {
  classes_ : list string
}.

(** [le.transform([y])[0]]: the position of [y] in [classes_], a
    [ValueError] for an unseen label. *)
Fixpoint index_of (y : string) (classes : list string) : option nat :=
  match classes with
  | [] => None
  | c :: cs => if String.eqb c y then Some 0 else S <$> index_of y cs
  end.

Definition le_transform (le : LabelEncoder) (y : string) : result nat :=
  match index_of y (classes_ le) with
  | Some i => inr i
  | None => inl ValueError
  end.

(** [le.inverse_transform([i])[0]] *)
Definition le_inverse_transform (le : LabelEncoder) (i : nat) : result string :=
  match classes_ le !! i with
  | Some y => inr y
  | None => inl ValueError
  end.

End Lib.

Import Lib.

(** ** The inference adapter and the fusion block *)

Module Engine.

(** The four module-level globals set by [load_model_assets]; [None]
    when the pickle files were not found. *)
Record assets : Type := {
  model : option XGBClassifier;
  scaler : option StandardScaler;
  encoder : option LabelEncoder;
  training_columns : option (list string)
}.

(** A one-row [DataFrame] built from a dict: column label to cell. *)
Abbreviation frame := (gmap string pyval).

(** [input_df[c]] *)
Definition column (input_df : frame) (c : string) : result pyval :=
  getitem input_df c.

Section with_numeric.
Context `{!Numeric}.

(** [try: input_df["temp_pressure_ratio"] = ... except Exception: ... = 0.0] *)
Definition add_temp_pressure_ratio (input_df : frame) : frame :=
  match
    t ← column input_df "engine_temp_c";
    p ← column input_df "oil_pressure_kpa";
    d ← series_add p (PNum float_1e_6);
    series_truediv t d
  with
  | inr r => <["temp_pressure_ratio" := r]> input_df
  | inl _ => <["temp_pressure_ratio" := PNum (Fin 0.0)]> input_df
  end.

(** [try: input_df["total_brake_wear"] = ... except Exception: ... = 0.0] *)
Definition add_total_brake_wear (input_df : frame) : frame :=
  match
    f ← column input_df "brake_pad_wear_mm_front";
    r ← column input_df "brake_pad_wear_mm_rear";
    series_add f r
  with
  | inr w => <["total_brake_wear" := w]> input_df
  | inl _ => <["total_brake_wear" := PNum (Fin 0.0)]> input_df
  end.

(** [input_df.reindex(columns=cols, fill_value=fill)]: the columns
    named by [cols], in that order. *)
Definition reindex (input_df : frame) (cols : list string) (fill : pyval)
  : list (string * pyval) :=
  (λ c, (c, default fill (input_df !! c))) <$> cols.

Definition engineer (input_data : dict) : frame :=
  add_total_brake_wear (add_temp_pressure_ratio input_data).

(** Lines 211-218: scale, predict, decode. *)
Definition infer (model : XGBClassifier) (scaler : StandardScaler)
    (encoder : LabelEncoder) (input_df : list (string * pyval))
  : result (string * number * option (list number)) :=
  input_scaled ← transform scaler input_df;
  prediction_encoded ← predict model input_scaled;
  prediction_proba ← predict_proba model input_scaled;
  predicted_failure ← le_inverse_transform encoder prediction_encoded;
  let confidence := float_mul (ndarray_max prediction_proba) (Fin 100) in
  mret (predicted_failure, confidence, Some prediction_proba).

Definition predict_failure (a : assets) (input_data : dict)
  : result (string * number * option (list number)) :=
  (* [if not all([model, scaler, encoder, training_columns])]: [None]
     and the empty list are the false elements *)
  match model a, scaler a, encoder a, training_columns a with
  | Some model, Some scaler, Some encoder, Some (c :: cs) =>
      let input_df := engineer input_data in
      let input_df := reindex input_df (c :: cs) (PNum (Fin 0)) in
      infer model scaler encoder input_df
  | _, _, _, _ => mret ("Model not loaded", Fin 0, None)
  end.

(** Lines 761-763: [all_alerts = set(rule_alerts)], then the guarded
    [all_alerts.add(predicted_failure)]. *)
Definition not_in_sentinels (predicted_failure : string) : bool :=
  negb (bool_decide (predicted_failure ∈ ["None"; "Normal"])).

Definition fuse (rule_alerts : list string) (predicted_failure : string)
    (confidence : number) : gset string :=
  let all_alerts : gset string := list_to_set rule_alerts in
  if not_in_sentinels predicted_failure && num_ge confidence (Fin 50)
  then {[predicted_failure]} ∪ all_alerts
  else all_alerts.

(** Lines 759-763. *)
Definition diagnose (a : assets) (data : dict)
  : result (gset string * string * number) :=
  let rule_alerts := check_custom_rules data in
  '(predicted_failure, confidence, prediction_proba) ← predict_failure a data;
  mret (fuse rule_alerts predicted_failure confidence, predicted_failure, confidence).

End with_numeric.

End Engine.

Import Engine.

(** ** The training script *)

Module Training.

Abbreviation row := (gmap string pyval).

Record DataFrame : Type := {
  columns : list string;
  rows : list row
}.

(** A missing cell: NaN or [None]. *)
Definition isna (cell : option pyval) : bool :=
  match cell with
  | None | Some PNone | Some (PNum NaN) => true
  | _ => false
  end.

(** [df[c]] raises [KeyError] for an unknown column. *)
Definition require_column (df : DataFrame) (c : string) : result unit :=
  if bool_decide (c ∈ columns df) then inr () else inl (KeyError c).

(** [df[c] = df[c].fillna(v)] *)
Definition fillna (c : string) (v : pyval) (df : DataFrame) : DataFrame :=
  {| columns := columns df;
     rows := (λ r, if isna (r !! c) then <[c := v]> r else r) <$> rows df |}.

(** [df.dropna(inplace=True)] *)
Definition dropna (df : DataFrame) : DataFrame :=
  {| columns := columns df;
     rows := filter (λ r, forallb (λ c, negb (isna (r !! c))) (columns df) = true)
               (rows df) |}.

(** A new column goes last; an existing one keeps its place. *)
Definition with_column (c : string) (cols : list string) : list string :=
  if bool_decide (c ∈ cols) then cols else (cols ++ [c])%list.

(** [sklearn.utils.check_random_state] *)
Definition check_random_state `{!Random} (global : rng) (seed : option Z) : rng :=
  match seed with
  | Some s => RandomState s
  | None => global
  end.

(** Positional selection of rows, [IndexError] out of range. *)
Definition take_rows {A} (l : list A) (indices : list nat) : result (list A) :=
  mapM (λ i, match l !! i with Some x => inr x | None => inl IndexError end) indices.

(** [sklearn.utils.resample(a, replace=True, n_samples=n, random_state=seed)]:
    [n] positions drawn by [randint(0, len(a), n)], which rejects an
    empty range.  The validation of the arguments, which differs between
    scikit-learn releases, is left out. *)
Definition resample `{!Random} {A} (global : rng) (a : list A)
    (n_samples : nat) (random_state : option Z) : result (list A) :=
  let g := check_random_state global random_state in
  if decide (length a = 0) then inl ValueError
  else take_rows a (randint g (length a) n_samples).

(** [np.unique]: the sorted distinct labels. *)
Fixpoint insert_unique (y : string) (l : list string) : list string :=
  match l with
  | [] => [y]
  | z :: l' =>
      match String.compare y z with
      | Lt => y :: z :: l'
      | Eq => z :: l'
      | Gt => z :: insert_unique y l'
      end
  end.

Definition np_unique (ys : list string) : list string :=
  foldr insert_unique [] ys.

(** [le = LabelEncoder(); y = le.fit_transform(ys)] *)
Definition le_fit_transform (ys : list string) : result (LabelEncoder * list nat) :=
  let le := {| classes_ := np_unique ys |} in
  y ← mapM (le_transform le) ys;
  mret (le, y).

Section with_libs.
Context `{!Numeric} `{!Random} `{!Learn}.

(** [df[c] = df[c].astype(str)] *)
Definition py_str (v : pyval) : string :=
  match v with
  | PStr s => s
  | PNum n => str_number n
  | PNone => "None"
  end.

Definition astype_str (c : string) (df : DataFrame) : DataFrame :=
  {| columns := columns df;
     rows := (λ r, match r !! c with
                   | Some v => <[c := PStr (py_str v)]> r
                   | None => r
                   end) <$> rows df |}.

(** Step 2, feature engineering, one row at a time. *)
Definition temp_pressure_ratio (r : row) : result pyval :=
  t ← getitem r "engine_temp_c";
  p ← getitem r "oil_pressure_kpa";
  d ← series_add p (PNum float_1e_6);
  series_truediv t d.

Definition total_brake_wear (r : row) : result pyval :=
  f ← getitem r "brake_pad_wear_mm_front";
  b ← getitem r "brake_pad_wear_mm_rear";
  series_add f b.

Definition assign (c : string) (f : row → result pyval) (df : DataFrame)
  : result DataFrame :=
  rs ← mapM (λ r, v ← f r; mret (<[c := v]> r)) (rows df);
  mret {| columns := with_column c (columns df); rows := rs |}.

Definition preprocess (df : DataFrame) : result DataFrame :=
  _ ← require_column df "failure_type";
  let df := fillna "failure_type" (PStr "None") df in
  let df := dropna df in
  let df := astype_str "failure_type" df in
  _ ← require_column df "engine_temp_c";
  _ ← require_column df "oil_pressure_kpa";
  df ← assign "temp_pressure_ratio" temp_pressure_ratio df;
  _ ← require_column df "brake_pad_wear_mm_front";
  _ ← require_column df "brake_pad_wear_mm_rear";
  assign "total_brake_wear" total_brake_wear df.

(** [df.drop(columns=cs)] *)
Definition drop_columns (cs : list string) (df : DataFrame) : result DataFrame :=
  _ ← mapM (require_column df) cs;
  mret {| columns := filter (λ c, c ∉ cs) (columns df);
          rows := (λ r, foldr delete r cs) <$> rows df |}.

Definition label_of (r : row) : string :=
  match r !! "failure_type" with
  | Some v => py_str v
  | None => "nan"
  end.

(** Step 3.  A row of [df_to_balance] is a row of [X] with its encoded
    label. *)
Definition balance (global : rng) (le : LabelEncoder) (X : list row)
    (y_encoded : list nat) : result (list (row * nat)) :=
  normal_class_id ← le_transform le "None";
  let df_to_balance := zip X y_encoded in
  let df_failures := filter (λ r, r.2 ≠ normal_class_id) df_to_balance in
  let df_normal := filter (λ r, r.2 = normal_class_id) df_to_balance in
  df_normal_upsampled ←
    resample global df_normal (length df_failures / 2) (Some 42%Z);
  mret (df_failures ++ df_normal_upsampled)%list.

(** What Steps 2 to 5 produce. *)
Record prepared : Type := {
  pre_encoder : LabelEncoder;
  pre_training_columns : list string;
  pre_balanced : list (row * nat);
  pre_scaler : StandardScaler;
  pre_train : list (list number * nat);
  pre_test : list (list number * nat)
}.

Definition prepare (global : rng) (df : DataFrame) : result prepared :=
  df ← preprocess df;
  X ← drop_columns ["vehicle_id"; "timestamp"; "failure_type"] df;
  let y_text := label_of <$> rows df in
  '(le, y_encoded) ← le_fit_transform y_text;
  let training_columns := columns X in
  df_balanced ← balance global le (rows X) y_encoded;
  let y_final := snd <$> df_balanced in
  let X_final := (λ r, reindex r.1 training_columns PNone) <$> df_balanced in
  '(scaler, X_scaled) ← scaler_fit_transform X_final;
  '(train_idx, test_idx) ←
    stratified_split (check_random_state global (Some 42%Z)) y_final;
  let data := zip X_scaled y_final in
  train_set ← take_rows data train_idx;
  test_set ← take_rows data test_idx;
  mret {| pre_encoder := le; pre_training_columns := training_columns;
          pre_balanced := df_balanced; pre_scaler := scaler;
          pre_train := train_set; pre_test := test_set |}.




End with_libs.

End Training.

Import Training.

(** ** The threshold table of the rule evaluator

    The ten rules as data, with the Python reading of a condition
    ([eval_cond], which raises as the code does) and its plain meaning
    ([holds]). *)

Module Table.

Inductive cond : Type :=
| Above (key : string) (c : Q)
| Below (key : string) (c : Q)
| BelowDefault (key : string) (dflt c : Q)
| Either (a b : cond).

Definition threshold_table : list (cond * string) :=
  [ (Above "odometer_km" 300000, "Maintenance Due / High Mileage Warning");
    (Above "engine_temp_c" 110, "Engine Overheating");
    (Below "battery_voltage_v" 12.0, "Battery Failure");
    (Below "oil_pressure_kpa" 150, "Low Oil Pressure Warning");
    (Either (Below "brake_pad_wear_mm_front" 3)
            (BelowDefault "brake_pad_wear_mm_rear" 3 3),
     "Brake Pads Critically Worn");
    (Below "suspension_health_pct" 40, "Suspension Failure Risk");
    (Below "tire_pressure_psi_fl" 20, "Low Tire Pressure");
    (Below "coolant_level_pct" 30, "Coolant Critically Low");
    (Below "brake_fluid_level_pct" 20, "Brake Fluid Critically Low");
    (Above "transmission_fluid_temp_c" 110, "Transmission Overheating") ].

Definition alert_labels : list string := snd <$> threshold_table.

Definition required_keys : list string :=
  [ "odometer_km"; "engine_temp_c"; "battery_voltage_v"; "oil_pressure_kpa";
    "brake_pad_wear_mm_front"; "suspension_health_pct"; "tire_pressure_psi_fl";
    "coolant_level_pct"; "brake_fluid_level_pct"; "transmission_fluid_temp_c" ].

(** The expression and the statement a table row stands for. *)
Fixpoint cond_expr (data : dict) (c : cond) : M bool :=
  match c with
  | Above k x => cmp_gt (subscript data k) (constant x)
  | Below k x => cmp_lt (subscript data k) (constant x)
  | BelowDefault k d x => cmp_lt (dict_get data k d) (constant x)
  | Either a b => bool_or (cond_expr data a) (cond_expr data b)
  end.

Definition rule_stmt (data : dict) (r : cond * string) : M unit :=
  if_stmt (cond_expr data r.1) (alerts_append r.2).

Fixpoint seq_stmts (ss : list (M unit)) : M unit :=
  match ss with
  | [] => mret ()
  | s :: ss' =>
      match ss' with
      | [] => s
      | _ :: _ => s ;; seq_stmts ss'
      end
  end.

(** The outcome of a condition, leaving the alert list out. *)
Fixpoint eval_cond (data : dict) (c : cond) : result bool :=
  match c with
  | Above k x => v ← getitem data k; py_gt v (PNum (Fin x))
  | Below k x => v ← getitem data k; py_lt v (PNum (Fin x))
  | BelowDefault k d x => py_lt (get data k (PNum (Fin d))) (PNum (Fin x))
  | Either a b =>
      eval_cond data a ≫= λ x : bool, if x then inr true else eval_cond data b
  end.

Definition evaluates (data : dict) (r : cond * string) : bool :=
  match eval_cond data r.1 with inr _ => true | inl _ => false end.

Definition fires (data : dict) (r : cond * string) : bool :=
  match eval_cond data r.1 with inr true => true | _ => false end.

(** The rows evaluated before the first one that raises. *)
Fixpoint evaluated_prefix (data : dict) (rules : list (cond * string))
  : list (cond * string) :=
  match rules with
  | [] => []
  | r :: rs => if evaluates data r then r :: evaluated_prefix data rs else []
  end.

Definition fired_alerts (data : dict) (rules : list (cond * string)) : list string :=
  snd <$> filter (λ r, fires data r = true) rules.

(** Per-rule fail-open evaluation: a row that raises is skipped and the
    rows after it are still evaluated. *)
Definition fail_open (data : dict) : list string :=
  fired_alerts data threshold_table.

(** The keys a condition subscripts whenever it is evaluated. *)
Fixpoint always_read (c : cond) : list string :=
  match c with
  | Above k _ | Below k _ => [k]
  | BelowDefault _ _ _ => []
  | Either a _ => always_read a
  end.

(** The meaning of the strict inequalities on ints and floats. *)
Definition above (n : number) (c : Q) : Prop :=
  match n with
  | Fin q => (c < q)%Q
  | Inf p => p = true
  | NaN => False
  end.

Definition below (n : number) (c : Q) : Prop :=
  match n with
  | Fin q => (q < c)%Q
  | Inf p => p = false
  | NaN => False
  end.

Definition at_least (n : number) (c : Q) : Prop :=
  match n with
  | Fin q => (c <= q)%Q
  | Inf p => p = true
  | NaN => False
  end.

Fixpoint holds (data : dict) (c : cond) : Prop :=
  match c with
  | Above k x => ∃ n, data !! k = Some (PNum n) ∧ above n x
  | Below k x => ∃ n, data !! k = Some (PNum n) ∧ below n x
  | BelowDefault k d x =>
      (∃ n, data !! k = Some (PNum n) ∧ below n x)
      ∨ (data !! k = None ∧ (d < x)%Q)
  | Either a b => holds data a ∨ holds data b
  end.

(** An alert is due when some row of the table with that label has its
    condition hold. *)
Definition alert_due (data : dict) (label : string) : Prop :=
  ∃ c, (c, label) ∈ threshold_table ∧ holds data c.

Definition is_number (cell : option pyval) : Prop :=
  ∃ n, cell = Some (PNum n).

(** Every key a condition looks at holds a number (or, for a key read
    with a default, may be missing). *)
Fixpoint numeric_for (data : dict) (c : cond) : Prop :=
  match c with
  | Above k _ | Below k _ => is_number (data !! k)
  | BelowDefault k _ _ => data !! k = None ∨ is_number (data !! k)
  | Either a b => numeric_for data a ∧ numeric_for data b
  end.

(** A reading with a number under every required key; the rear brake
    pad wear is a number when it is there. *)
Definition numeric_reading (data : dict) : Prop :=
  (∀ k, k ∈ required_keys → is_number (data !! k))
  ∧ (data !! "brake_pad_wear_mm_rear" = None
     ∨ is_number (data !! "brake_pad_wear_mm_rear")).

End Table.

Import Table.

(** ** Sample readings *)

Module Samples.

Definition reading (l : list (string * Q)) : dict :=
  list_to_map ((λ kv, (kv.1, PNum (Fin kv.2))) <$> l).

(** Every threshold crossed. *)
Definition all_thresholds : dict :=
  reading [ ("odometer_km", 350000); ("engine_temp_c", 115);
            ("battery_voltage_v", 11.5); ("oil_pressure_kpa", 100);
            ("brake_pad_wear_mm_front", 2); ("suspension_health_pct", 30);
            ("tire_pressure_psi_fl", 15); ("coolant_level_pct", 20);
            ("brake_fluid_level_pct", 10); ("transmission_fluid_temp_c", 120) ]%Q.

(** No threshold crossed. *)
Definition no_threshold : dict :=
  reading [ ("odometer_km", 50000); ("engine_temp_c", 90);
            ("battery_voltage_v", 13.5); ("oil_pressure_kpa", 300);
            ("brake_pad_wear_mm_front", 8); ("brake_pad_wear_mm_rear", 8);
            ("suspension_health_pct", 90); ("tire_pressure_psi_fl", 32);
            ("coolant_level_pct", 95); ("brake_fluid_level_pct", 95);
            ("transmission_fluid_temp_c", 85) ]%Q.

(** Every value exactly on its threshold. *)
Definition on_thresholds : dict :=
  reading [ ("odometer_km", 300000); ("engine_temp_c", 110);
            ("battery_voltage_v", 12.0); ("oil_pressure_kpa", 150);
            ("brake_pad_wear_mm_front", 3); ("brake_pad_wear_mm_rear", 3);
            ("suspension_health_pct", 40); ("tire_pressure_psi_fl", 20);
            ("coolant_level_pct", 30); ("brake_fluid_level_pct", 20);
            ("transmission_fluid_temp_c", 110) ]%Q.

End Samples.

Import Samples.

(** ** Stand-ins for the library parameters

    Exact rational arithmetic on finite numbers and a counter for a
    generator: enough to run the definitions on examples. *)

Module StandIn.

Definition exact_add (v w : pyval) : result pyval :=
  match v, w with
  | PNum (Fin a), PNum (Fin b) => inr (PNum (Fin (a + b)))
  | PNum _, PNum _ => inr (PNum NaN)
  | _, _ => inl TypeError
  end.

Definition exact_div (v w : pyval) : result pyval :=
  match v, w with
  | PNum (Fin a), PNum (Fin b) =>
      inr (PNum (if Qeq_bool b 0 then NaN else Fin (a / b)))
  | PNum _, PNum _ => inr (PNum NaN)
  | _, _ => inl TypeError
  end.

Definition exact_mul (a b : number) : number :=
  match a, b with
  | Fin x, Fin y => Fin (x * y)
  | _, _ => NaN
  end.

Definition exact_max (l : list number) : number :=
  foldr (λ n m, if num_lt m n then n else m) (Inf false) l.

Definition exact_arith : Numeric :=
  {| float_1e_6 := Fin 1e-6;
     series_add := exact_add;
     series_truediv := exact_div;
     ndarray_max := exact_max;
     float_mul := exact_mul;
     str_number := λ _, "0" |}.

Definition counter_randint (g high size : nat) : list nat :=
  (λ i, (g + i) mod high) <$> seq 0 size.

Lemma counter_randint_length g high size :
  length (counter_randint g high size) = size.
Proof. unfold counter_randint. by rewrite length_fmap, length_seq. Qed.

Lemma counter_randint_bound g high size i :
  0 < high → i ∈ counter_randint g high size → i < high.
Proof.
  unfold counter_randint. intros Hh (j & -> & _)%list_elem_of_fmap.
  apply Nat.mod_upper_bound. lia.
Qed.

Definition counter_random : Random :=
  {| rng := nat;
     RandomState := Z.to_nat;
     randint := counter_randint;
     randint_length := counter_randint_length;
     randint_bound := counter_randint_bound |}.

(** A scaler that leaves numbers as they are, a split that sends every
    fifth row to the test set, and a classifier that always answers
    class 0. *)
Definition cell_number (v : pyval) : number :=
  match v with
  | PNum n => n
  | _ => NaN
  end.

Definition plain_row (r : list (string * pyval)) : list number :=
  (λ c, cell_number c.2) <$> r.

Definition every_fifth (g : nat) (y : list nat) : result (list nat * list nat) :=
  let idx := seq 0 (length y) in
  inr (filter (λ i, i mod 5 ≠ 4) idx, filter (λ i, i mod 5 = 4) idx).

Definition constant_model : XGBClassifier :=
  {| predict := λ _, inr 0; predict_proba := λ _, inr [Fin 1] |}.

Definition toy_learn : @Learn counter_random :=
  {| world := nat;
     global_rng := λ w : nat, w : @rng counter_random;
     scaler_fit_transform := λ X,
       inr ({| transform := λ r, inr (plain_row r) |}, plain_row <$> X);
     stratified_split := every_fifth;
     xgb_fit := λ _ _ _ _ _, inr constant_model |}.

(** A small frame as [read_csv] would return it: the second row has no
    failure type. *)
Definition csv_row (id : Q) (temp oil front rear : Q) (label : pyval) : row :=
  list_to_map
    [ ("vehicle_id", PNum (Fin id)); ("timestamp", PStr "2024-01-01");
      ("engine_temp_c", PNum (Fin temp)); ("oil_pressure_kpa", PNum (Fin oil));
      ("brake_pad_wear_mm_front", PNum (Fin front));
      ("brake_pad_wear_mm_rear", PNum (Fin rear)); ("failure_type", label) ].

Definition toy_frame : DataFrame :=
  {| columns := [ "vehicle_id"; "timestamp"; "engine_temp_c"; "oil_pressure_kpa";
                  "brake_pad_wear_mm_front"; "brake_pad_wear_mm_rear";
                  "failure_type" ];
     rows := [ csv_row 1 118 90 6 6 (PStr "Engine Overheating");
               csv_row 2 90 300 8 8 (PNum NaN);
               csv_row 3 95 280 1 2 (PStr "Brake Failure");
               csv_row 4 92 120 7 7 (PStr "Oil Leak");
               csv_row 5 121 100 5 5 (PStr "Engine Overheating") ] |}.

(** No pickle file was found. *)
Definition nothing_loaded : assets :=
  {| model := None; scaler := None; encoder := None; training_columns := None |}.

End StandIn.

Import StandIn.

(** ** Accounts, session state and the handlers of the pages

    [st.session_state] is threaded through the handlers as a record of the
    keys they use.  SHA-256 and the regular-expression engine are
    parameters; what a handler shows to the user is returned as a tag. *)

Module Accounts.

Class Hashlib : Type := {
  (** [hashlib.sha256(pw.encode()).hexdigest()] *)
  sha256_hexdigest : string → string
}.

Class Re : Type := {
  (** [re.match(pattern, s)] is not [None] *)
  re_match : string → string → bool
}.

(** A car of [user["cars"]]. *)
Record car : Type := {
  make : string;
  car_model : string;
  year : Z;
  odometer : Z
}.

(** A value of [st.session_state['users']]; the key ["mobile"] is set
    after the record is created. *)
Record user : Type := {
  pw_hash : string;
  full_name : string;
  email : string;
  cars : list car;
  mobile : option string
}.

Record session : Type := {
  ss_users : gmap string user;
  ss_current_user : option string;
  ss_page : option string;
  ss_diagnosis_input : option dict
}.

Definition set_users (s : session) (us : gmap string user) : session :=
  {| ss_users := us; ss_current_user := ss_current_user s;
     ss_page := ss_page s; ss_diagnosis_input := ss_diagnosis_input s |}.

Definition set_page (s : session) (p : string) : session :=
  {| ss_users := ss_users s; ss_current_user := ss_current_user s;
     ss_page := Some p; ss_diagnosis_input := ss_diagnosis_input s |}.

(** Truth value of a string: the empty string is false. *)
Definition truthy (x : string) : bool := negb (String.eqb x "").

Section with_hash.
Context `{!Hashlib}.

Definition hash_password (pw : string) : string := sha256_hexdigest pw.

Definition create_user (s : session) (username pw full email : string)
  : session * (bool * string) :=
  let users := ss_users s in
  if decide (is_Some (users !! username)) then (s, (false, "Username exists"))
  else
    (set_users s
       (<[username := {| pw_hash := hash_password pw; full_name := full;
                         email := email; cars := []; mobile := None |}]> users),
     (true, "User created")).

Definition authenticate (s : session) (username pw : string) : bool :=
  match ss_users s !! username with
  | Some u => String.eqb (pw_hash u) (hash_password pw)
  | None => false
  end.

Definition current_user (s : session) : option string := ss_current_user s.

Definition login_user (s : session) (username : string) : session :=
  {| ss_users := ss_users s; ss_current_user := Some username;
     ss_page := ss_page s; ss_diagnosis_input := ss_diagnosis_input s |}.

Definition logout_user (s : session) : session :=
  {| ss_users := ss_users s; ss_current_user := None;
     ss_page := ss_page s; ss_diagnosis_input := ss_diagnosis_input s |}.

(** [if current_user():] *)
Definition logged_in (s : session) : bool :=
  match current_user s with
  | Some username => truthy username
  | None => false
  end.

(** The sidebar's Logout button (lines 225-230). *)
Definition logout_click (s : session) : session :=
  if logged_in s then set_page (logout_user s) "Home" else s.

(** What a submitted form answers. *)
Inductive feedback : Type :=
| FillAllFields
| InvalidEmail
| InvalidMobile
| PasswordMismatch
| AccountCreated
| SignupRefused (msg : string)
| MissingCredentials
| LoggedIn
| InvalidCredentials.

Definition email_pattern : string :=
  "^(?!.*\.\.)[A-Za-z0-9!#$%&'*+/=?^_`{|}~-]+(?:\.[A-Za-z0-9!#$%&'*+/=?^_`{|}~-]+)*@[A-Za-z0-9-]+(?:\.[A-Za-z0-9-]+)*\.[A-Za-z]{2,}$".

Definition mobile_pattern : string := "^\+?[0-9]{1,4}[0-9]{10}$".

(** [mobile.replace(" ", "")] *)
Fixpoint remove_spaces (x : string) : string :=
  match x with
  | EmptyString => EmptyString
  | String c x' =>
      if Ascii.eqb c " "%char then remove_spaces x' else String c (remove_spaces x')
  end.

Definition set_mobile (u : user) (m : string) : user :=
  {| pw_hash := pw_hash u; full_name := full_name u; email := email u;
     cars := cars u; mobile := Some m |}.

(** The Sign Up form (lines 457-484). *)
Definition signup_submit `{!Re} (s : session)
    (full_name email mobile username password password2 : string)
  : session * feedback :=
  let valid_email := re_match email_pattern email in
  let mobile_clean := remove_spaces mobile in
  let valid_mobile := re_match mobile_pattern mobile_clean in
  if negb (truthy username && truthy password && truthy full_name
           && truthy email && truthy mobile)
  then (s, FillAllFields)
  else if negb valid_email then (s, InvalidEmail)
  else if negb valid_mobile then (s, InvalidMobile)
  else if negb (String.eqb password password2) then (s, PasswordMismatch)
  else
    let '(s, (ok, msg)) := create_user s username password full_name email in
    if ok
    then (set_users s (alter (λ u, set_mobile u mobile_clean) username (ss_users s)),
          AccountCreated)
    else (s, SignupRefused msg).

(** The Log In form (lines 499-510). *)
Definition login_submit (s : session) (username password : string)
  : session * feedback :=
  if negb (truthy username && truthy password) then (s, MissingCredentials)
  else if authenticate s username password
  then (set_page (login_user s username) "Dashboard", LoggedIn)
  else (s, InvalidCredentials).

End with_hash.

(** *** Cars (Profile page, lines 576-616) *)

Definition set_cars (u : user) (cs : list car) : user :=
  {| pw_hash := pw_hash u; full_name := full_name u; email := email u;
     cars := cs; mobile := mobile u |}.

(** The page is rendered for [username = current_user()], with
    [user = st.session_state["users"][username]]; [None] when nobody is
    logged in and the page only shows a warning. *)
Definition page_user (s : session) : result (option (string * user)) :=
  match ss_current_user s with
  | Some username =>
      if truthy username
      then match ss_users s !! username with
           | Some u => inr (Some (username, u))
           | None => inl (KeyError username)
           end
      else inr None
  | None => inr None
  end.

Inductive car_feedback : Type :=
| PleaseLogIn
| MakeAndModelNeeded
| CarAdded
| CarRemoved (c : car).

(** The Add Car form. *)
Definition add_car_submit (s : session) (make model : string) (year odometer : Z)
  : result (session * car_feedback) :=
  page_user s ≫= λ o : option (string * user),
  match o with
  | None => mret (s, PleaseLogIn)
  | Some (username, u) =>
      if negb (truthy make && truthy model) then mret (s, MakeAndModelNeeded)
      else
        let c := {| make := make; car_model := model; year := year;
                    odometer := odometer |} in
        mret (set_users s (<[username := set_cars u (cars u ++ [c])%list]> (ss_users s)),
              CarAdded)
  end.

(** The Delete button of the [i]-th car: [user["cars"].pop(i)]. *)
Definition delete_car_click (s : session) (i : nat)
  : result (session * car_feedback) :=
  page_user s ≫= λ o : option (string * user),
  match o with
  | None => mret (s, PleaseLogIn)
  | Some (username, u) =>
      match cars u !! i with
      | Some removed_car =>
          mret (set_users s (<[username := set_cars u (delete i (cars u))]> (ss_users s)),
                CarRemoved removed_car)
      | None => inl IndexError
      end
  end.

(** *** Dashboard (lines 664-694) *)

(** [f"{c['make']} {c['model']} ({c['year']})"] *)
Definition car_label (c : car) : string :=
  make c +:+ " " +:+ car_model c +:+ " (" +:+ pretty (year c) +:+ ")".

(** [sel_idx = options.index(selected); selected_car = cars[sel_idx]] *)
Definition select_car (cars : list car) (selected : string) : result car :=
  match index_of selected (car_label <$> cars) with
  | Some sel_idx =>
      match cars !! sel_idx with
      | Some c => inr c
      | None => inl IndexError
      end
  | None => inl ValueError
  end.

(** The dict stored under ["diagnosis_input"].  The cell under ["car"]
    holds the selected car's record; it stays a parameter. *)
Definition diagnosis_input (car : pyval)
    (odometer_km engine_temp_c battery_voltage_v oil_pressure_kpa
       brake_wear_front : number) : dict :=
  list_to_map
    [ ("car", car);
      ("odometer_km", PNum odometer_km);
      ("engine_temp_c", PNum engine_temp_c);
      ("battery_voltage_v", PNum battery_voltage_v);
      ("oil_pressure_kpa", PNum oil_pressure_kpa);
      ("brake_pad_wear_mm_front", PNum brake_wear_front);
      ("brake_pad_wear_mm_rear", PNum brake_wear_front);
      ("suspension_health_pct", PNum (Fin 85));
      ("coolant_level_pct", PNum (Fin 95));
      ("brake_fluid_level_pct", PNum (Fin 95));
      ("fuel_level_pct", PNum (Fin 70));
      ("transmission_fluid_temp_c", PNum (Fin 85));
      ("tire_pressure_psi_fl", PNum (Fin 32)) ].

(** The Run Diagnosis button. *)
Definition run_diagnosis (s : session) (data : dict) : session :=
  {| ss_users := ss_users s; ss_current_user := ss_current_user s;
     ss_page := Some "Detailed Analysis"; ss_diagnosis_input := Some data |}.

(** *** Detailed Analysis (lines 721-763) *)

Definition guest : user :=
  {| pw_hash := ""; full_name := "Guest"; email := "N/A"; cars := [];
     mobile := None |}.

(** [None] when no diagnosis was run: the page only shows a warning. *)
Definition detailed_analysis `{!Numeric} (a : assets) (s : session)
  : result (option (gset string * string * number)) :=
  match ss_diagnosis_input s with
  | None => mret None
  | Some data =>
      selected_car ← getitem data "car";
      user ← match current_user s with
             | Some username =>
                 if truthy username
                 then match ss_users s !! username with
                      | Some u => inr u
                      | None => inl (KeyError username)
                      end
                 else inr guest
             | None => inr guest
             end;
      odometer_km ← getitem data "odometer_km";
      engine_temp_c ← getitem data "engine_temp_c";
      battery_voltage_v ← getitem data "battery_voltage_v";
      oil_pressure_kpa ← getitem data "oil_pressure_kpa";
      brake_wear_front ← getitem data "brake_pad_wear_mm_front";
      verdict ← diagnose a data;
      mret (Some verdict)
  end.

End Accounts.

Import Accounts.

(** ** The keys the rules look at *)

Module Reads.

Fixpoint keys_read (c : cond) : list string :=
  match c with
  | Above k _ | Below k _ | BelowDefault k _ _ => [k]
  | Either a b => keys_read a ++ keys_read b
  end.

Definition rule_keys : list string :=
  mjoin ((λ r : cond * string, keys_read r.1) <$> threshold_table).

(** What the Detailed Analysis page subscripts before it calls the rules
    (lines 728 and 752-756). *)
Definition page_keys : list string :=
  [ "car"; "odometer_km"; "engine_temp_c"; "battery_voltage_v";
    "oil_pressure_kpa"; "brake_pad_wear_mm_front" ].

End Reads.

Import Reads.

(** ** Loading the artifacts (lines 29-46) *)

Module Loader.

(** What [open] and [pickle.load] raise here: only the first is caught. *)
Inductive load_exn : Type :=
| FileNotFoundError (path : string)
| UnpicklingError (path : string).

Definition loading (A : Type) : Type := load_exn + A.

#[export] Instance loading_ret : MRet loading := λ A x, inr x.

#[export] Instance loading_bind : MBind loading := λ A B f m,
  match m with
  | inr a => f a
  | inl e => inl e
  end.

(** [pickle.load] on the bytes of each file; [None] when it raises.  A
    file is taken to hold an object of the kind its name says. *)
Class Pickle : Type := {
  loads_model : string → option XGBClassifier;
  loads_scaler : string → option StandardScaler;
  loads_encoder : string → option LabelEncoder;
  loads_columns : string → option (list string)
}.

(** The files of the working directory, by name. *)
Abbreviation files := (gmap string string).

(** [with open(path, 'rb') as f: x = pickle.load(f)] *)
Definition load_file {A} (fs : files) (loads : string → option A) (path : string)
  : loading A :=
  match fs !! path with
  | None => inl (FileNotFoundError path)
  | Some bytes =>
      match loads bytes with
      | Some x => inr x
      | None => inl (UnpicklingError path)
      end
  end.

Definition load_model_assets `{!Pickle} (fs : files) : loading assets :=
  match
    model ← load_file fs loads_model "model.pkl";
    scaler ← load_file fs loads_scaler "scaler.pkl";
    encoder ← load_file fs loads_encoder "encoder.pkl";
    columns ← load_file fs loads_columns "training_columns.pkl";
    mret {| model := Some model; scaler := Some scaler;
            encoder := Some encoder; training_columns := Some columns |}
  with
  | inl (FileNotFoundError _) =>
      inr {| model := None; scaler := None; encoder := None;
             training_columns := None |}
  | r => r
  end.

Definition pickle_files : list string :=
  ["model.pkl"; "scaler.pkl"; "encoder.pkl"; "training_columns.pkl"].

End Loader.

Import Loader.

(** ** Regular expressions of the Sign Up form

    The patterns of lines 459 and 465 as syntax trees, with Python's
    reading of them: [re.match] needs a prefix of the string in the
    language of the pattern, and a final [$] lets that prefix stop at the
    end of the string or just before a last newline. *)

Module Regex.

Inductive regex : Type :=
| Void
| Eps
| Class (p : ascii → bool)
| Cat (r1 r2 : regex)
| Alt (r1 r2 : regex)
| Star (r : regex).

Inductive lang : regex → list ascii → Prop :=
| lang_eps : lang Eps []
| lang_class p c : p c = true → lang (Class p) [c]
| lang_cat r1 r2 l1 l2 : lang r1 l1 → lang r2 l2 → lang (Cat r1 r2) (l1 ++ l2)
| lang_alt_l r1 r2 l : lang r1 l → lang (Alt r1 r2) l
| lang_alt_r r1 r2 l : lang r2 l → lang (Alt r1 r2) l
| lang_star_nil r : lang (Star r) []
| lang_star_cons r c l1 l2 :
    lang r (c :: l1) → lang (Star r) l2 → lang (Star r) (c :: l1 ++ l2).

(** Matching by derivatives. *)
Fixpoint nullable (r : regex) : bool :=
  match r with
  | Void | Class _ => false
  | Eps | Star _ => true
  | Cat r1 r2 => nullable r1 && nullable r2
  | Alt r1 r2 => nullable r1 || nullable r2
  end.

Fixpoint deriv (c : ascii) (r : regex) : regex :=
  match r with
  | Void | Eps => Void
  | Class p => if p c then Eps else Void
  | Cat r1 r2 =>
      if nullable r1 then Alt (Cat (deriv c r1) r2) (deriv c r2)
      else Cat (deriv c r1) r2
  | Alt r1 r2 => Alt (deriv c r1) (deriv c r2)
  | Star r1 => Cat (deriv c r1) (Star r1)
  end.

Fixpoint fullmatch (r : regex) (l : list ascii) : bool :=
  match l with
  | [] => nullable r
  | c :: l' => fullmatch (deriv c r) l'
  end.

(** [r?], [r+], [r{n}], [r{m,n}] *)
Definition opt (r : regex) : regex := Alt Eps r.
Definition plus (r : regex) : regex := Cat r (Star r).

Fixpoint times (n : nat) (r : regex) : regex :=
  match n with
  | 0 => Eps
  | S n' => Cat r (times n' r)
  end.

Fixpoint upto (n : nat) (r : regex) : regex :=
  match n with
  | 0 => Eps
  | S n' => opt (Cat r (upto n' r))
  end.

Definition between (m n : nat) (r : regex) : regex :=
  Cat (times m r) (upto (n - m) r).

Definition code (c : ascii) : nat := nat_of_ascii c.

(** [[0-9]] and [\+] *)
Definition is_digit (c : ascii) : bool :=
  ((48 <=? code c)%nat && (code c <=? 57)%nat)%bool.
Definition is_plus (c : ascii) : bool := Ascii.eqb c "+"%char.

(** [\+?[0-9]{1,4}[0-9]{10}], the pattern of line 465 between [^] and [$]. *)
Definition mobile_regex : regex :=
  Cat (opt (Class is_plus)) (Cat (between 1 4 (Class is_digit)) (times 10 (Class is_digit))).

Definition newline : ascii := "010"%char.

(** [re.match] of [^ r $]. *)
Definition match_to_end (r : regex) (x : string) : bool :=
  let l := String.list_ascii_of_string x in
  fullmatch r l
  || match reverse l with
     | c :: before => Ascii.eqb c newline && fullmatch r (reverse before)
     | [] => false
     end.

End Regex.

Import Regex.

(** ** The handlers as steps of a session *)

Module Steps.

Inductive event : Type :=
| SignUp (full_name email mobile username password password2 : string)
| LogIn (username password : string)
| LogOut
| AddCar (make model : string) (year odometer : Z)
| DeleteCar (i : nat)
| RunDiagnosis (data : dict).

(** A handler that raises leaves the session as it was. *)
Definition keep {A} (s : session) (r : result (session * A)) : session :=
  match r with
  | inr (s', _) => s'
  | inl _ => s
  end.

Definition step `{!Hashlib} `{!Re} (s : session) (e : event) : session :=
  match e with
  | SignUp full_name email mobile username password password2 =>
      (signup_submit s full_name email mobile username password password2).1
  | LogIn username password => (login_submit s username password).1
  | LogOut => logout_click s
  | AddCar make model year odometer =>
      keep s (add_car_submit s make model year odometer)
  | DeleteCar i => keep s (delete_car_click s i)
  | RunDiagnosis data => run_diagnosis s data
  end.

(** A fresh session: [st.session_state['users'] = {}] (line 145). *)
Definition fresh : session :=
  {| ss_users := ∅; ss_current_user := None; ss_page := None;
     ss_diagnosis_input := None |}.

Definition run `{!Hashlib} `{!Re} (es : list event) : session :=
  foldl step fresh es.

(** Whoever is logged in has an account, and no account has an empty
    name. *)
Definition consistent (s : session) : Prop :=
  (∀ username, ss_current_user s = Some username →
               truthy username = true ∧ is_Some (ss_users s !! username))
  ∧ (∀ username, is_Some (ss_users s !! username) → truthy username = true).

End Steps.

Import Steps.

(** ** Stand-ins for the hash and the regular expressions *)

Module Demo.

Definition toy_hash : Hashlib := {| sha256_hexdigest := λ pw, "#" +:+ pw |}.

Definition accept_all : Re := {| re_match := λ _ _, true |}.

Definition ann_signs_up : event :=
  SignUp "Ann Lee" "ann@example.org" "+91 98765 43210" "ann" "s3cret" "s3cret".

(** Artifacts that always answer the first class with probability 1. *)
Definition demo_assets : assets :=
  {| model := Some constant_model;
     scaler := Some {| transform := λ r, inr (plain_row r) |};
     encoder := Some {| classes_ := ["Engine Overheating"; "None"] |};
     training_columns :=
       Some ["engine_temp_c"; "oil_pressure_kpa"; "temp_pressure_ratio";
             "total_brake_wear"] |}.

(** The toy frame without its unlabelled row. *)
Definition labelled_frame : DataFrame :=
  {| columns := columns toy_frame;
     rows := [ csv_row 1 118 90 6 6 (PStr "Engine Overheating");
               csv_row 3 95 280 1 2 (PStr "Brake Failure") ] |}.

(** Every file unpickles to the demo artifacts, whatever its bytes. *)
Definition demo_pickle : Pickle :=
  {| loads_model := λ _, model demo_assets;
     loads_scaler := λ _, scaler demo_assets;
     loads_encoder := λ _, encoder demo_assets;
     loads_columns := λ _, training_columns demo_assets |}.

(** An engine that reads the mobile pattern and accepts every e-mail. *)
Definition mobile_re : Re :=
  {| re_match := λ pattern x,
       if String.eqb pattern mobile_pattern then match_to_end mobile_regex x
       else true |}.

Definition civic (odometer : Z) : car :=
  {| make := "Honda"; car_model := "Civic"; year := 2019; odometer := odometer |}.

End Demo.

Import Demo.

(** * Properties *)

(** ** The body of [check_custom_rules] is the table, row by row *)

Section refinement.
Variable data : dict.

Lemma cond_expr_run c alerts :
  cond_expr data c alerts = (alerts, eval_cond data c).
Proof.
  induction c as [k x|k x|k d x|a IHa b IHb]; simpl.
  - unfold cmp_gt, subscript, constant, lift, mbind, M_bind, mret, M_ret, getitem.
    destruct (data !! k); reflexivity.
  - unfold cmp_lt, subscript, constant, lift, mbind, M_bind, mret, M_ret, getitem.
    destruct (data !! k); reflexivity.
  - reflexivity.
  - unfold bool_or, mbind, M_bind. rewrite IHa.
    destruct (eval_cond data a) as [e|[]]; simpl; [reflexivity|reflexivity|apply IHb].
Qed.

Lemma rule_stmt_run r alerts :
  rule_stmt data r alerts =
    match eval_cond data r.1 with
    | inl e => (alerts, inl e)
    | inr b => ((alerts ++ if b then [r.2] else [])%list, inr ())
    end.
Proof.
  unfold rule_stmt, if_stmt, mbind, M_bind. rewrite cond_expr_run.
  destruct (eval_cond data r.1) as [e|[]]; simpl; try reflexivity.
  unfold mret, M_ret. by rewrite app_nil_r.
Qed.

End refinement.

Section prefix_semantics.
Variable data : dict.

Lemma fired_alerts_cons r rs :
  fired_alerts data (r :: rs) =
    ((if fires data r then [r.2] else []) ++ fired_alerts data rs)%list.
Proof.
  unfold fired_alerts. rewrite filter_cons.
  destruct (fires data r); case_decide; try done.
Qed.

Lemma seq_stmts_run rules alerts :
  fst (seq_stmts (rule_stmt data <$> rules) alerts) =
    (alerts ++ fired_alerts data (evaluated_prefix data rules))%list.
Proof.
  revert alerts. induction rules as [|r rs IH]; intros alerts.
  - simpl. by rewrite app_nil_r.
  - assert (Hstep : ∀ k : M unit,
              (∀ a, fst (k a) = (a ++ fired_alerts data (evaluated_prefix data rs))%list) →
              fst ((rule_stmt data r ;; k) alerts) =
              (alerts ++ fired_alerts data (evaluated_prefix data (r :: rs)))%list).
    { intros k Hk. unfold mbind, M_bind. rewrite rule_stmt_run. simpl.
      unfold evaluates.
      destruct (eval_cond data r.1) as [e|b] eqn:E; simpl.
      - by rewrite app_nil_r.
      - rewrite Hk, fired_alerts_cons. unfold fires. rewrite E.
        destruct b; by rewrite <- app_assoc. }
    destruct rs as [|r' rs'].
    + change (seq_stmts (rule_stmt data <$> [r])) with (rule_stmt data r).
      rewrite rule_stmt_run. simpl. unfold evaluates.
      destruct (eval_cond data r.1) as [e|b] eqn:E; simpl.
      * by rewrite app_nil_r.
      * rewrite fired_alerts_cons. unfold fires. rewrite E. by destruct b.
    + rewrite <- (Hstep (seq_stmts (rule_stmt data <$> r' :: rs')) IH).
      reflexivity.
Qed.

(** The function is the prefix evaluation of the table. *)
Lemma check_custom_rules_table :
  check_custom_rules data =
    fired_alerts data (evaluated_prefix data threshold_table).
Proof.
  unfold check_custom_rules.
  change (body data) with (seq_stmts (rule_stmt data <$> threshold_table)).
  by rewrite seq_stmts_run.
Qed.

End prefix_semantics.

(** ** Comparisons against their meaning *)

Lemma Qltb_lt x y : Qltb x y = true ↔ (x < y)%Q.
Proof.
  unfold Qltb. rewrite negb_true_iff. split.
  - intros H. apply Qnot_le_lt. intros Hle. apply Qle_bool_iff in Hle. congruence.
  - intros H. destruct (Qle_bool y x) eqn:E; [|done].
    apply Qle_bool_iff in E. by apply Qlt_not_le in H.
Qed.

Lemma num_lt_above n c : num_lt (Fin c) n = true ↔ above n c.
Proof. destruct n as [q|[]|]; simpl; rewrite ?Qltb_lt; naive_solver. Qed.

Lemma num_gt_above n c : num_gt n (Fin c) = true ↔ above n c.
Proof. apply num_lt_above. Qed.

Lemma num_lt_below n c : num_lt n (Fin c) = true ↔ below n c.
Proof.
  destruct n as [q|[]|]; simpl; rewrite ?Qltb_lt; naive_solver.
Qed.

Lemma num_ge_at_least n c : num_ge n (Fin c) = true ↔ at_least n c.
Proof.
  destruct n as [q|[]|]; simpl; unfold num_ge; simpl;
    rewrite ?Qle_bool_iff; naive_solver.
Qed.

Lemma below_not_at_least n c : below n c → ¬ at_least n c.
Proof.
  destruct n as [q|[]|]; simpl; try naive_solver.
  intros H1 H2. by apply Qlt_not_le in H1.
Qed.

Section conditions.
Variable data : dict.

(** On numbers a condition evaluates, and to the truth of its meaning. *)
Lemma eval_cond_numeric c :
  numeric_for data c →
  ∃ b, eval_cond data c = inr b ∧ (b = true ↔ holds data c).
Proof.
  induction c as [k x|k x|k d x|a IHa b IHb]; cbn [eval_cond holds numeric_for].
  - intros [n Hn]. exists (num_gt n (Fin x)). unfold getitem. rewrite Hn.
    split; [done|]. rewrite num_gt_above. naive_solver.
  - intros [n Hn]. exists (num_lt n (Fin x)). unfold getitem. rewrite Hn.
    split; [done|]. rewrite num_lt_below. naive_solver.
  - unfold get. intros [Hn|[n Hn]]; rewrite Hn.
    + exists (num_lt (Fin d) (Fin x)). split; [done|].
      cbn [num_lt]. rewrite Qltb_lt. naive_solver.
    + exists (num_lt n (Fin x)). split; [done|]. rewrite num_lt_below. naive_solver.
  - intros [Ha Hb].
    destruct (IHa Ha) as (x & -> & Hx), (IHb Hb) as (y & Hy & Hy').
    destruct x; cbn [mbind result_bind].
    + exists true. naive_solver.
    + exists y. split; [done|]. rewrite Hy'. split; [tauto|].
      intros [H|H]; [|done]. apply Hx in H. done.
Qed.

(** A condition that evaluates to true has its meaning hold, whatever
    the other cells are. *)
Lemma eval_cond_sound c : eval_cond data c = inr true → holds data c.
Proof.
  induction c as [k x|k x|k d x|a IHa b IHb]; simpl; unfold getitem, get.
  - destruct (data !! k) as [[n|s|]|] eqn:E; simpl; try done.
    intros [= H]. apply num_lt_above in H. eauto.
  - destruct (data !! k) as [[n|s|]|] eqn:E; simpl; try done.
    intros [= H]. apply num_lt_below in H. eauto.
  - destruct (data !! k) as [[n|s|]|] eqn:E; simpl; try done.
    + intros [= H]. apply num_lt_below in H. eauto.
    + intros [= H]. apply Qltb_lt in H. eauto.
  - destruct (eval_cond data a) as [e|[]]; simpl; [done|auto|auto].
Qed.

(** A missing key that a condition always subscripts makes it raise. *)
Lemma eval_cond_missing c k :
  k ∈ always_read c → data !! k = None → eval_cond data c = inl (KeyError k).
Proof.
  induction c as [k' x|k' x|k' d x|a IHa b IHb]; simpl; unfold getitem.
  - intros ->%list_elem_of_singleton ->. done.
  - intros ->%list_elem_of_singleton ->. done.
  - by intros ?%elem_of_nil.
  - intros Hk Hd. by rewrite (IHa Hk Hd).
Qed.

End conditions.

Section alerts.
Variable data : dict.

Lemma evaluated_prefix_all rules :
  Forall (λ r, evaluates data r = true) rules →
  evaluated_prefix data rules = rules.
Proof. induction 1 as [|r rs Hr _ IH]; simpl; [done|]. by rewrite Hr, IH. Qed.

Lemma evaluated_prefix_sublist rules :
  evaluated_prefix data rules `sublist_of` rules.
Proof.
  induction rules as [|r rs IH]; simpl; [done|].
  destruct (evaluates data r); [by apply sublist_skip|apply sublist_nil_l].
Qed.

Lemma fired_alerts_sublist rules rules' :
  rules `sublist_of` rules' →
  fired_alerts data rules `sublist_of` snd <$> rules'.
Proof.
  intros H. unfold fired_alerts. apply fmap_sublist.
  etrans; [apply sublist_filter|done].
Qed.

Lemma elem_of_fired_alerts rules l :
  l ∈ fired_alerts data rules ↔
  ∃ c, (c, l) ∈ rules ∧ eval_cond data c = inr true.
Proof.
  unfold fired_alerts. rewrite list_elem_of_fmap. split.
  - intros ([c l'] & -> & [Hf Hin]%list_elem_of_filter). exists c. split; [done|].
    unfold fires in Hf. simpl in *. by destruct (eval_cond data c) as [|[]].
  - intros (c & Hin & Hc). exists (c, l). split; [done|].
    apply list_elem_of_filter. split; [|done]. unfold fires. simpl. by rewrite Hc.
Qed.

(** Ten distinct labels, and the function returns a sublist of them. *)
Lemma alert_labels_NoDup : NoDup alert_labels.
Proof. apply (bool_decide_unpack _). by vm_compute. Qed.

Lemma check_custom_rules_sublist :
  check_custom_rules data `sublist_of` alert_labels.
Proof.
  rewrite check_custom_rules_table.
  apply fired_alerts_sublist, evaluated_prefix_sublist.
Qed.

Lemma check_custom_rules_NoDup : NoDup (check_custom_rules data).
Proof.
  eapply sublist_NoDup; [apply alert_labels_NoDup|apply check_custom_rules_sublist].
Qed.

Lemma check_custom_rules_sound l :
  l ∈ check_custom_rules data → alert_due data l.
Proof.
  rewrite check_custom_rules_table. intros (c & Hin & Hc)%elem_of_fired_alerts.
  exists c. split.
  - eapply elem_of_sublist; [done|]. apply evaluated_prefix_sublist.
  - by apply eval_cond_sound.
Qed.

Lemma numeric_reading_table :
  numeric_reading data → Forall (λ r, numeric_for data r.1) threshold_table.
Proof.
  intros [Hreq Hrear].
  assert (Hk : ∀ k, bool_decide (k ∈ required_keys) = true → is_number (data !! k)).
  { intros k Hk. apply Hreq. by apply bool_decide_eq_true in Hk. }
  unfold threshold_table.
  repeat (apply Forall_cons; split;
          [simpl; first [by apply Hk|split; [by apply Hk|done]]|]).
  constructor.
Qed.

Lemma numeric_reading_exact :
  numeric_reading data →
  ∀ l, l ∈ check_custom_rules data ↔ alert_due data l.
Proof.
  intros Hnum l. split; [apply check_custom_rules_sound|].
  intros (c & Hin & Hc).
  pose proof (numeric_reading_table Hnum) as Hall.
  rewrite check_custom_rules_table, evaluated_prefix_all.
  - apply elem_of_fired_alerts. exists c. split; [done|].
    rewrite Forall_forall in Hall.
    destruct (eval_cond_numeric data c (Hall _ Hin)) as (b & -> & Hb).
    f_equal. by apply Hb.
  - eapply Forall_impl; [exact Hall|]. intros [c' l'] Hc'. unfold evaluates.
    simpl in *. by destruct (eval_cond_numeric data c' Hc') as (b & -> & _).
Qed.

End alerts.

(** Only one row of the table carries a given label. *)
Lemma threshold_table_label c l :
  (c, l) ∈ threshold_table → ∀ c', (c', l) ∈ threshold_table → c' = c.
Proof.
  unfold threshold_table. intros H c' H'.
  repeat (apply elem_of_cons in H as [H|H]; [injection H as -> ->|]);
    try (by apply elem_of_nil in H);
    repeat (apply elem_of_cons in H' as [H'|H']; [by (injection H' as ->)|]);
    by apply elem_of_nil in H'.
Qed.

Lemma on_boundary_not_due data c l k x :
  (c, l) ∈ threshold_table →
  c = Above k x ∨ c = Below k x →
  data !! k = Some (PNum (Fin x)) →
  ¬ alert_due data l.
Proof.
  intros Hin Hc Hk (c' & Hin' & Hholds).
  rewrite (threshold_table_label c l Hin c' Hin') in Hholds.
  destruct Hc as [->| ->]; simpl in Hholds; destruct Hholds as (n & Hn & Hx);
    rewrite Hk in Hn; injection Hn as <-; simpl in Hx; by apply Qlt_irrefl in Hx.
Qed.

(** C1. On a reading with a number under every required key (the rear
    brake pad wear a number when present), [check_custom_rules] returns
    exactly the labels of the threshold table whose strict inequality
    holds, each at most once; a value sitting exactly on the threshold of
    engine temperature (110), battery voltage (12.0) or odometer (300000)
    does not raise its alert; the reading crossing every threshold gets
    the ten labels once each, and the reading crossing none gets the empty
    list. *)
Theorem check_custom_rules_exact (data : dict) :
  numeric_reading data →
  (NoDup (check_custom_rules data)
   ∧ ∀ l, l ∈ check_custom_rules data ↔ alert_due data l)
  ∧ (data !! "engine_temp_c" = Some (PNum (Fin 110)) →
     "Engine Overheating" ∉ check_custom_rules data)
  ∧ (data !! "battery_voltage_v" = Some (PNum (Fin 12.0)) →
     "Battery Failure" ∉ check_custom_rules data)
  ∧ (data !! "odometer_km" = Some (PNum (Fin 300000)) →
     "Maintenance Due / High Mileage Warning" ∉ check_custom_rules data)
  ∧ check_custom_rules all_thresholds =
      [ "Maintenance Due / High Mileage Warning"; "Engine Overheating";
        "Battery Failure"; "Low Oil Pressure Warning";
        "Brake Pads Critically Worn"; "Suspension Failure Risk";
        "Low Tire Pressure"; "Coolant Critically Low";
        "Brake Fluid Critically Low"; "Transmission Overheating" ]
  ∧ check_custom_rules no_threshold = [].
Proof.
  intros Hnum. split; [split|].
  - apply check_custom_rules_NoDup.
  - by apply numeric_reading_exact.
  - repeat split; try (by vm_compute);
      intros Hk Hin%(numeric_reading_exact data Hnum); revert Hin.
    + eapply (on_boundary_not_due _ (Above "engine_temp_c" 110)); [|by left|done].
      unfold threshold_table. set_solver.
    + eapply (on_boundary_not_due _ (Below "battery_voltage_v" 12.0)); [|by right|done].
      unfold threshold_table. set_solver.
    + eapply (on_boundary_not_due _ (Above "odometer_km" 300000)); [|by left|done].
      unfold threshold_table. set_solver.
Qed.

Ltac reading_is_numeric :=
  split;
  [ let k := fresh "k" in let Hk := fresh "Hk" in
    intros k Hk; unfold required_keys in Hk;
    repeat (apply elem_of_cons in Hk as [->|Hk]; [eexists; vm_compute; reflexivity|]);
    by apply elem_of_nil in Hk
  | first [ left; vm_compute; reflexivity | right; eexists; vm_compute; reflexivity ] ].

Lemma check_custom_rules_exact_witness :
  numeric_reading on_thresholds
  ∧ NoDup (check_custom_rules on_thresholds)
  ∧ "Engine Overheating" ∉ check_custom_rules on_thresholds.
Proof.
  assert (H : numeric_reading on_thresholds) by reading_is_numeric.
  split; [exact H|].
  destruct (check_custom_rules_exact on_thresholds H) as ([Hnd _] & Hengine & _).
  split; [exact Hnd|]. apply Hengine. vm_compute. reflexivity.
Defined.

(** ** A key that cannot be read *)

Section first_failure.
Variable data : dict.

Lemma evaluated_prefix_take rules :
  ∃ n, evaluated_prefix data rules = take n rules
       ∧ (∀ r, r ∈ take n rules → evaluates data r = true)
       ∧ (∀ r, rules !! n = Some r → evaluates data r = false).
Proof.
  induction rules as [|r rs (n & Hn & Hok & Hfail)]; simpl.
  - exists 0. split; [done|]. split; [by intros ? ?%elem_of_nil|done].
  - destruct (evaluates data r) eqn:E.
    + exists (S n). simpl. rewrite Hn. split; [done|]. split; [|done].
      intros r' [->|Hr']%elem_of_cons; auto.
    + exists 0. simpl. split; [done|]. split; [by intros ? ?%elem_of_nil|].
      by intros r' [= <-].
Qed.

Lemma take_sublist_evaluated_prefix n rules :
  (∀ r, r ∈ take n rules → evaluates data r = true) →
  take n rules `sublist_of` evaluated_prefix data rules.
Proof.
  revert n. induction rules as [|r rs IH]; intros [|n] H; simpl;
    try apply sublist_nil_l.
  simpl in H. rewrite (H r) by apply list_elem_of_here.
  apply sublist_skip, IH. intros r' Hr'. apply H. by apply list_elem_of_further.
Qed.

Lemma fired_alerts_mono rules rules' l :
  rules `sublist_of` rules' → l ∈ fired_alerts data rules → l ∈ fired_alerts data rules'.
Proof.
  intros Hsub (c & Hin & Hc)%elem_of_fired_alerts. apply elem_of_fired_alerts.
  exists c. split; [|done]. by eapply elem_of_sublist.
Qed.

Lemma missing_key_rule_silent k c l :
  data !! k = None → (c, l) ∈ threshold_table → k ∈ always_read c →
  l ∉ check_custom_rules data.
Proof.
  intros Hk Hin Hread. rewrite check_custom_rules_table.
  intros (c' & Hin' & Hc')%elem_of_fired_alerts.
  assert (c' = c) as ->.
  { apply (threshold_table_label c l Hin).
    eapply elem_of_sublist; [done|]. apply evaluated_prefix_sublist. }
  by rewrite (eval_cond_missing data c k Hread Hk) in Hc'.
Qed.

End first_failure.

Ltac pick_row :=
  apply list_elem_of_here + (apply list_elem_of_further; pick_row).

Lemma required_key_rule k :
  k ∈ required_keys → ∃ c l, (c, l) ∈ threshold_table ∧ k ∈ always_read c.
Proof.
  unfold required_keys, threshold_table. intros Hk.
  repeat (apply elem_of_cons in Hk as [->|Hk];
          [eexists _, _; split; [pick_row|simpl; apply list_elem_of_here]|]).
  by apply elem_of_nil in Hk.
Qed.

(** C10. For every mapping the returned list holds only labels of the ten
    rows, each at most once; the rows are evaluated in table order, and the
    result is exactly the labels of the rows that fire among those before
    the first row whose evaluation raises.  With a key missing this is in
    general neither what per-rule fail-open evaluation returns nor the
    empty list. *)
Theorem check_custom_rules_prefix :
  (∀ data : dict,
     (∀ l, l ∈ check_custom_rules data → l ∈ alert_labels)
     ∧ NoDup (check_custom_rules data)
     ∧ ∃ n,
         (∀ r, r ∈ take n threshold_table → ∃ b, eval_cond data r.1 = inr b)
         ∧ (∀ r, threshold_table !! n = Some r → ∃ e, eval_cond data r.1 = inl e)
         ∧ check_custom_rules data = fired_alerts data (take n threshold_table))
  ∧ (let data := delete "coolant_level_pct" all_thresholds in
     check_custom_rules data =
       [ "Maintenance Due / High Mileage Warning"; "Engine Overheating";
         "Battery Failure"; "Low Oil Pressure Warning";
         "Brake Pads Critically Worn"; "Suspension Failure Risk";
         "Low Tire Pressure" ]
     ∧ fail_open data =
       [ "Maintenance Due / High Mileage Warning"; "Engine Overheating";
         "Battery Failure"; "Low Oil Pressure Warning";
         "Brake Pads Critically Worn"; "Suspension Failure Risk";
         "Low Tire Pressure"; "Brake Fluid Critically Low";
         "Transmission Overheating" ]).
Proof.
  split; [|by vm_compute].
  intros data. split; [|split].
  - intros l Hl. eapply elem_of_sublist; [done|]. apply check_custom_rules_sublist.
  - apply check_custom_rules_NoDup.
  - destruct (evaluated_prefix_take data threshold_table) as (n & Hn & Hok & Hfail).
    exists n. split; [|split].
    + intros r Hr. specialize (Hok r Hr). unfold evaluates in Hok.
      destruct (eval_cond data r.1); [done|eauto].
    + intros r Hr. specialize (Hfail r Hr). unfold evaluates in Hfail.
      destruct (eval_cond data r.1); [eauto|done].
    + by rewrite check_custom_rules_table, Hn.
Qed.

(** C3 (the code departs from it).  With [odometer_km] missing and every
    other threshold crossed, [check_custom_rules] returns no alert at all,
    where skipping only the rule that cannot be evaluated would return the
    nine other alerts. *)
Theorem check_custom_rules_not_fail_open :
  let data := delete "odometer_km" all_thresholds in
  check_custom_rules data = []
  ∧ fail_open data =
      [ "Engine Overheating"; "Battery Failure"; "Low Oil Pressure Warning";
        "Brake Pads Critically Worn"; "Suspension Failure Risk";
        "Low Tire Pressure"; "Coolant Critically Low";
        "Brake Fluid Critically Low"; "Transmission Overheating" ].
Proof. by vm_compute. Qed.

(** C4 as stated fails: with only [transmission_fluid_temp_c] missing the
    nine alerts appended before the failing access are returned. *)
Lemma missing_key_not_empty :
  ¬ (∀ (data : dict) k,
       k ∈ required_keys → data !! k = None → check_custom_rules data = []).
Proof.
  intros H.
  specialize (H (delete "transmission_fluid_temp_c" all_thresholds)
                "transmission_fluid_temp_c").
  assert (Hnil : check_custom_rules
                   (delete "transmission_fluid_temp_c" all_thresholds) = []).
  { apply H; [unfold required_keys; set_solver|by vm_compute]. }
  vm_compute in Hnil. discriminate Hnil.
Qed.

(** C4, amended.  On a reading that lacks a required key the function
    returns normally; the rule that subscripts the missing key yields no
    alert; every alert returned is due; and the alerts of the rows that
    fired before any evaluation raised are kept in the result. *)
Theorem missing_key_soft_fail (data : dict) (k : string) :
  k ∈ required_keys → data !! k = None →
  (∃ c l, (c, l) ∈ threshold_table ∧ k ∈ always_read c
          ∧ l ∉ check_custom_rules data)
  ∧ (∀ l, l ∈ check_custom_rules data → alert_due data l)
  ∧ (∀ n, (∀ r, r ∈ take n threshold_table → ∃ b, eval_cond data r.1 = inr b) →
          ∀ l, l ∈ fired_alerts data (take n threshold_table) →
               l ∈ check_custom_rules data).
Proof.
  intros Hreq Hk. split; [|split].
  - destruct (required_key_rule k Hreq) as (c & l & Hin & Hread).
    exists c, l. eauto using missing_key_rule_silent.
  - apply check_custom_rules_sound.
  - intros n Hn l Hl. rewrite check_custom_rules_table.
    eapply fired_alerts_mono; [|done].
    apply take_sublist_evaluated_prefix. intros r Hr.
    unfold evaluates. by destruct (Hn r Hr) as [b ->].
Qed.

Lemma missing_key_soft_fail_witness :
  let data := delete "transmission_fluid_temp_c" all_thresholds in
  "transmission_fluid_temp_c" ∈ required_keys
  ∧ data !! "transmission_fluid_temp_c" = None
  ∧ (∀ l, l ∈ check_custom_rules data → alert_due data l).
Proof.
  intros data.
  assert (H1 : "transmission_fluid_temp_c" ∈ required_keys)
    by (unfold required_keys; set_solver).
  assert (H2 : data !! "transmission_fluid_temp_c" = None) by (vm_compute; reflexivity).
  split; [exact H1|]. split; [exact H2|].
  exact (proj1 (proj2 (missing_key_soft_fail data _ H1 H2))).
Defined.

(** ** Fusion *)

Lemma not_in_sentinels_spec label :
  not_in_sentinels label = true ↔ label ≠ "None" ∧ label ≠ "Normal".
Proof.
  unfold not_in_sentinels. rewrite negb_true_iff, bool_decide_eq_false.
  rewrite !not_elem_of_cons. split; [tauto|]. intros [? ?].
  split; [done|]. split; [done|]. apply not_elem_of_nil.
Qed.

Lemma fuse_added rule_alerts label confidence :
  label ≠ "None" → label ≠ "Normal" → at_least confidence 50 →
  fuse rule_alerts label confidence = list_to_set rule_alerts ∪ {[label]}.
Proof.
  intros H1 H2 H3. unfold fuse.
  rewrite (proj2 (not_in_sentinels_spec label)) by done.
  rewrite (proj2 (num_ge_at_least confidence 50)) by done.
  simpl. set_solver.
Qed.

Lemma fuse_unchanged rule_alerts label confidence :
  ¬ (label ≠ "None" ∧ label ≠ "Normal" ∧ at_least confidence 50) →
  fuse rule_alerts label confidence = list_to_set rule_alerts.
Proof.
  intros H. unfold fuse.
  destruct (not_in_sentinels label) eqn:E1; [|done].
  destruct (num_ge confidence (Fin 50)) eqn:E2; [|done].
  exfalso. apply H. apply not_in_sentinels_spec in E1 as [? ?].
  apply num_ge_at_least in E2. done.
Qed.

(** C2. The fused set is the rule alerts with the predicted label added
    when the label is neither "None" nor "Normal" (exact, case-sensitive
    comparison) and the confidence is at least 50, and the rule alerts
    unchanged otherwise; so nothing is added below 50 whatever the label,
    and "None" and "Normal" are not added even at confidence 100. *)
Theorem fuse_policy (rule_alerts : list string) (predicted_failure : string)
    (confidence : number) :
  (predicted_failure ≠ "None" ∧ predicted_failure ≠ "Normal"
   ∧ at_least confidence 50 →
     fuse rule_alerts predicted_failure confidence
     = list_to_set rule_alerts ∪ {[predicted_failure]})
  ∧ (¬ (predicted_failure ≠ "None" ∧ predicted_failure ≠ "Normal"
        ∧ at_least confidence 50) →
     fuse rule_alerts predicted_failure confidence = list_to_set rule_alerts)
  ∧ (below confidence 50 →
     fuse rule_alerts predicted_failure confidence = list_to_set rule_alerts)
  ∧ fuse rule_alerts "None" (Fin 100) = list_to_set rule_alerts
  ∧ fuse rule_alerts "Normal" (Fin 100) = list_to_set rule_alerts
  ∧ fuse rule_alerts "none" (Fin 100) = list_to_set rule_alerts ∪ {["none"]}.
Proof.
  split; [|split; [|split; [|split; [|split]]]].
  - intros (? & ? & ?). by apply fuse_added.
  - apply fuse_unchanged.
  - intros Hlow. apply fuse_unchanged. intros (_ & _ & Hge).
    by apply below_not_at_least in Hlow.
  - apply fuse_unchanged. by intros [? _].
  - apply fuse_unchanged. by intros (_ & ? & _).
  - by apply fuse_added.
Qed.

Lemma fuse_policy_witness :
  fuse ["Engine Overheating"] "Battery Failure" (Fin 50)
  = list_to_set ["Engine Overheating"] ∪ {["Battery Failure"]}
  ∧ fuse ["Engine Overheating"] "Battery Failure" (Fin 49.9)
    = list_to_set ["Engine Overheating"].
Proof.
  split.
  - refine (proj1 (fuse_policy ["Engine Overheating"] "Battery Failure" (Fin 50)) _).
    split; [discriminate|]. split; [discriminate|]. simpl. discriminate.
  - refine (proj1 (proj2 (proj2
      (fuse_policy ["Engine Overheating"] "Battery Failure" (Fin 49.9)))) _).
    simpl. reflexivity.
Defined.

(** ** Missing artifacts *)

Section unavailable.
Context `{!Numeric}.
Variables (a : assets) (data : dict).
Hypothesis absent :
  model a = None ∨ scaler a = None ∨ encoder a = None
  ∨ training_columns a = None.

Lemma predict_failure_not_loaded :
  predict_failure a data = inr ("Model not loaded", Fin 0, None).
Proof.
  unfold predict_failure.
  destruct absent as [-> | [-> | [-> | ->]]];
    repeat match goal with |- context [match ?o with _ => _ end] => destruct o end;
    reflexivity.
Qed.

Lemma fuse_not_loaded rule_alerts :
  fuse rule_alerts "Model not loaded" (Fin 0) = list_to_set rule_alerts.
Proof. apply fuse_unchanged. intros (_ & _ & Hge). simpl in Hge. by apply Hge. Qed.

Lemma diagnose_not_loaded :
  diagnose a data =
    inr (list_to_set (check_custom_rules data), "Model not loaded", Fin 0).
Proof.
  unfold diagnose. rewrite predict_failure_not_loaded. simpl.
  by rewrite fuse_not_loaded.
Qed.

End unavailable.

(** C5. When any of the four artifacts is absent, [predict_failure]
    returns the "Model not loaded" triple instead of raising, and the
    diagnosis block completes with the rule alerts alone. *)
Theorem predict_failure_unavailable `{!Numeric} (a : assets) (data : dict) :
  model a = None ∨ scaler a = None ∨ encoder a = None
  ∨ training_columns a = None →
  predict_failure a data = inr ("Model not loaded", Fin 0, None)
  ∧ ∃ confidence,
      diagnose a data =
        inr (list_to_set (check_custom_rules data), "Model not loaded", confidence).
Proof.
  intros Habsent. split.
  - by apply predict_failure_not_loaded.
  - exists (Fin 0). by apply diagnose_not_loaded.
Qed.

Lemma predict_failure_unavailable_witness :
  model nothing_loaded = None
  ∧ @predict_failure exact_arith nothing_loaded all_thresholds
    = inr ("Model not loaded", Fin 0, None).
Proof.
  split; [reflexivity|].
  refine (proj1 (@predict_failure_unavailable exact_arith nothing_loaded
                   all_thresholds _)).
  left. reflexivity.
Defined.

(** C9. With an artifact missing the returned triple is exactly
    ("Model not loaded", 0, None); 0 is below the fusion threshold, so the
    fused set is the set of rule alerts and "Model not loaded" is not one
    of the alerts. *)
Theorem model_not_loaded_never_alerts `{!Numeric} (a : assets) (data : dict) :
  model a = None ∨ scaler a = None ∨ encoder a = None
  ∨ training_columns a = None →
  predict_failure a data = inr ("Model not loaded", Fin 0, None)
  ∧ below (Fin 0) 50
  ∧ ∃ all_alerts : gset string,
      diagnose a data = inr (all_alerts, "Model not loaded", Fin 0)
      ∧ all_alerts = list_to_set (check_custom_rules data)
      ∧ "Model not loaded" ∉ all_alerts.
Proof.
  intros Habsent. split; [by apply predict_failure_not_loaded|].
  split; [done|].
  exists (list_to_set (check_custom_rules data)).
  split; [by apply diagnose_not_loaded|]. split; [done|].
  rewrite elem_of_list_to_set. intros Hin.
  assert (Hl : "Model not loaded" ∈ alert_labels).
  { eapply elem_of_sublist; [done|]. apply check_custom_rules_sublist. }
  revert Hl. apply (bool_decide_eq_false_1 _). by vm_compute.
Qed.

Lemma model_not_loaded_never_alerts_witness :
  encoder nothing_loaded = None
  ∧ ∃ all_alerts : gset string,
      @diagnose exact_arith nothing_loaded all_thresholds
      = inr (all_alerts, "Model not loaded", Fin 0)
      ∧ all_alerts = list_to_set (check_custom_rules all_thresholds)
      ∧ "Model not loaded" ∉ all_alerts.
Proof.
  split; [reflexivity|].
  refine (proj2 (proj2 (@model_not_loaded_never_alerts exact_arith nothing_loaded
                          all_thresholds _))).
  right. right. left. reflexivity.
Defined.

(** ** Derived features and reindexing *)

Section features.
Context `{!Numeric}.
Variable data : dict.

Lemma engineer_ratio :
  engineer data !! "temp_pressure_ratio" =
    add_temp_pressure_ratio data !! "temp_pressure_ratio".
Proof.
  unfold engineer, add_total_brake_wear.
  destruct (_ ≫= _); by rewrite lookup_insert_ne.
Qed.

Lemma engineer_source k :
  k ≠ "temp_pressure_ratio" →
  add_temp_pressure_ratio data !! k = data !! k.
Proof.
  intros Hk. unfold add_temp_pressure_ratio.
  destruct (_ ≫= _); by rewrite lookup_insert_ne.
Qed.

Lemma ratio_value t p d r :
  data !! "engine_temp_c" = Some t → data !! "oil_pressure_kpa" = Some p →
  series_add p (PNum float_1e_6) = inr d → series_truediv t d = inr r →
  engineer data !! "temp_pressure_ratio" = Some r.
Proof.
  intros Ht Hp Hd Hr. rewrite engineer_ratio.
  unfold add_temp_pressure_ratio, column, getitem. rewrite Ht, Hp. simpl.
  rewrite Hd. simpl. rewrite Hr. by rewrite lookup_insert_eq.
Qed.

Lemma ratio_fallback :
  data !! "engine_temp_c" = None ∨ data !! "oil_pressure_kpa" = None
  ∨ (∃ p e, data !! "oil_pressure_kpa" = Some p
            ∧ series_add p (PNum float_1e_6) = inl e)
  ∨ (∃ t p d e, data !! "engine_temp_c" = Some t
                ∧ data !! "oil_pressure_kpa" = Some p
                ∧ series_add p (PNum float_1e_6) = inr d
                ∧ series_truediv t d = inl e) →
  engineer data !! "temp_pressure_ratio" = Some (PNum (Fin 0.0)).
Proof.
  intros Hfail. rewrite engineer_ratio.
  unfold add_temp_pressure_ratio, column, getitem.
  destruct Hfail as [Ht|[Hp|[(p & e & Hp & He)|(t & p & d & e & Ht & Hp & Hd & He)]]].
  - rewrite Ht. simpl. by rewrite lookup_insert_eq.
  - rewrite Hp. destruct (data !! "engine_temp_c"); simpl; by rewrite lookup_insert_eq.
  - rewrite Hp. destruct (data !! "engine_temp_c"); simpl; rewrite ?He; simpl;
      by rewrite lookup_insert_eq.
  - rewrite Ht, Hp. simpl. rewrite Hd. simpl. rewrite He.
    by rewrite lookup_insert_eq.
Qed.

Lemma wear_value f b w :
  data !! "brake_pad_wear_mm_front" = Some f →
  data !! "brake_pad_wear_mm_rear" = Some b →
  series_add f b = inr w →
  engineer data !! "total_brake_wear" = Some w.
Proof.
  intros Hf Hb Hw. unfold engineer, add_total_brake_wear, column, getitem.
  rewrite !engineer_source by done. rewrite Hf, Hb. simpl. rewrite Hw.
  by rewrite lookup_insert_eq.
Qed.

Lemma wear_fallback :
  data !! "brake_pad_wear_mm_front" = None
  ∨ data !! "brake_pad_wear_mm_rear" = None
  ∨ (∃ f b e, data !! "brake_pad_wear_mm_front" = Some f
              ∧ data !! "brake_pad_wear_mm_rear" = Some b
              ∧ series_add f b = inl e) →
  engineer data !! "total_brake_wear" = Some (PNum (Fin 0.0)).
Proof.
  intros Hfail. unfold engineer, add_total_brake_wear, column, getitem.
  rewrite !engineer_source by done.
  destruct Hfail as [Hf|[Hb|(f & b & e & Hf & Hb & He)]].
  - rewrite Hf. simpl. by rewrite lookup_insert_eq.
  - rewrite Hb. destruct (data !! "brake_pad_wear_mm_front"); simpl;
      by rewrite lookup_insert_eq.
  - rewrite Hf, Hb. simpl. rewrite He. by rewrite lookup_insert_eq.
Qed.

End features.

Section reindexing.
Variables (input_df : frame) (cols : list string) (fill : pyval).

Lemma reindex_columns : fst <$> reindex input_df cols fill = cols.
Proof.
  unfold reindex. induction cols as [|c cs IH]; simpl; [done|]. by f_equal.
Qed.

Lemma reindex_lookup i c :
  cols !! i = Some c →
  reindex input_df cols fill !! i = Some (c, default fill (input_df !! c)).
Proof. intros Hc. unfold reindex. by rewrite list_lookup_fmap, Hc. Qed.

End reindexing.

(** C6. The two derived features are [engine_temp_c / (oil_pressure_kpa +
    1e-6)] and [brake_pad_wear_mm_front + brake_pad_wear_mm_rear]; when a
    source field is missing or the arithmetic raises, the feature is 0.0
    and the call goes on; the frame is then laid out on the training
    columns, in their order, a column the frame lacks being 0 and a column
    outside the list being dropped, for any list of training columns; and
    that vector is what [predict_failure] scales. *)
Theorem derived_features_and_reindex `{!Numeric} (data : dict) (cols : list string) :
  let input_df := engineer data in
  (∀ t p d r,
     data !! "engine_temp_c" = Some t → data !! "oil_pressure_kpa" = Some p →
     series_add p (PNum float_1e_6) = inr d → series_truediv t d = inr r →
     input_df !! "temp_pressure_ratio" = Some r)
  ∧ (∀ f b w,
       data !! "brake_pad_wear_mm_front" = Some f →
       data !! "brake_pad_wear_mm_rear" = Some b →
       series_add f b = inr w →
       input_df !! "total_brake_wear" = Some w)
  ∧ (data !! "engine_temp_c" = None ∨ data !! "oil_pressure_kpa" = None
     ∨ (∃ p e, data !! "oil_pressure_kpa" = Some p
               ∧ series_add p (PNum float_1e_6) = inl e)
     ∨ (∃ t p d e, data !! "engine_temp_c" = Some t
                   ∧ data !! "oil_pressure_kpa" = Some p
                   ∧ series_add p (PNum float_1e_6) = inr d
                   ∧ series_truediv t d = inl e) →
     input_df !! "temp_pressure_ratio" = Some (PNum (Fin 0.0)))
  ∧ (data !! "brake_pad_wear_mm_front" = None
     ∨ data !! "brake_pad_wear_mm_rear" = None
     ∨ (∃ f b e, data !! "brake_pad_wear_mm_front" = Some f
                 ∧ data !! "brake_pad_wear_mm_rear" = Some b
                 ∧ series_add f b = inl e) →
     input_df !! "total_brake_wear" = Some (PNum (Fin 0.0)))
  ∧ (let vector := reindex input_df cols (PNum (Fin 0)) in
     fst <$> vector = cols
     ∧ (∀ i c v, cols !! i = Some c → input_df !! c = Some v →
                 vector !! i = Some (c, v))
     ∧ (∀ i c, cols !! i = Some c → input_df !! c = None →
               vector !! i = Some (c, PNum (Fin 0))))
  ∧ (∀ a m sc enc c cs,
       model a = Some m → scaler a = Some sc → encoder a = Some enc →
       training_columns a = Some (c :: cs) →
       predict_failure a data =
         infer m sc enc (reindex input_df (c :: cs) (PNum (Fin 0)))).
Proof.
  intros input_df. repeat split.
  - apply ratio_value.
  - apply wear_value.
  - apply ratio_fallback.
  - apply wear_fallback.
  - apply reindex_columns.
  - intros i c v Hc Hv. by rewrite (reindex_lookup _ _ _ i c Hc), Hv.
  - intros i c Hc Hv. by rewrite (reindex_lookup _ _ _ i c Hc), Hv.
  - intros a m sc enc c cs Hm Hs He Hc. unfold predict_failure.
    by rewrite Hm, Hs, He, Hc.
Qed.

Lemma derived_features_and_reindex_witness :
  @engineer exact_arith all_thresholds !! "temp_pressure_ratio"
  = Some (PNum (Fin (115 / (100 + 1e-6))))
  ∧ @engineer exact_arith all_thresholds !! "total_brake_wear"
    = Some (PNum (Fin 0.0))
  ∧ reindex (@engineer exact_arith all_thresholds)
      ["engine_temp_c"; "cabin_humidity_pct"; "total_brake_wear"] (PNum (Fin 0))
    !! 1 = Some ("cabin_humidity_pct", PNum (Fin 0)).
Proof.
  pose proof (@derived_features_and_reindex exact_arith all_thresholds
                ["engine_temp_c"; "cabin_humidity_pct"; "total_brake_wear"])
    as (Hratio & _ & _ & Hwear & (_ & _ & Hfill) & _).
  split; [|split].
  - apply (Hratio (PNum (Fin 115)) (PNum (Fin 100)) (PNum (Fin (100 + 1e-6))));
      reflexivity.
  - apply Hwear. right. left. reflexivity.
  - apply (Hfill 1 "cabin_humidity_pct"); reflexivity.
Defined.

(** ** The label encoder *)

Lemma elem_of_insert_unique y z l : z ∈ insert_unique y l ↔ z = y ∨ z ∈ l.
Proof.
  induction l as [|x l IH]; simpl.
  - rewrite list_elem_of_singleton. split; [auto|]. intros [?|?%elem_of_nil]; done.
  - destruct (String.compare y x) eqn:E.
    + apply String.compare_eq_iff in E as ->. rewrite elem_of_cons. tauto.
    + rewrite !elem_of_cons. tauto.
    + rewrite !elem_of_cons, IH. tauto.
Qed.

Lemma elem_of_np_unique y ys : y ∈ np_unique ys ↔ y ∈ ys.
Proof.
  unfold np_unique. induction ys as [|z ys IH]; simpl; [done|].
  by rewrite elem_of_insert_unique, elem_of_cons, IH.
Qed.

Lemma index_of_elem y classes : y ∈ classes → ∃ i, index_of y classes = Some i.
Proof.
  induction classes as [|c cs IH]; [by intros ?%elem_of_nil|]. simpl.
  destruct (String.eqb_spec c y) as [->|Hne]; [eauto|].
  intros [->|Hin]%elem_of_cons; [done|]. destruct (IH Hin) as [i ->]. eauto.
Qed.

Lemma index_of_lookup y classes i :
  index_of y classes = Some i → classes !! i = Some y.
Proof.
  revert i. induction classes as [|c cs IH]; intros i; simpl; [done|].
  destruct (String.eqb_spec c y) as [->|Hne]; [by intros [= <-]|].
  destruct (index_of y cs) as [j|]; simpl; [|done].
  intros [= <-]. by apply IH.
Qed.

(** A label seen while fitting has a code, and distinct labels have
    distinct codes: the normal rows of the balancing step are the rows
    labelled "None". *)
Lemma le_transform_fitted y ys :
  y ∈ ys → ∃ code, le_transform {| classes_ := np_unique ys |} y = inr code.
Proof.
  intros Hy. unfold le_transform. simpl.
  destruct (index_of_elem y (np_unique ys)) as [i ->]; [|eauto].
  by apply elem_of_np_unique.
Qed.

Lemma le_transform_inj le y z code :
  le_transform le y = inr code → le_transform le z = inr code → y = z.
Proof.
  unfold le_transform.
  destruct (index_of y (classes_ le)) as [i|] eqn:Ey; [|done].
  destruct (index_of z (classes_ le)) as [j|] eqn:Ez; [|done].
  intros [= <-] [= <-]. apply index_of_lookup in Ey, Ez. congruence.
Qed.

(** ** Balancing *)





Section balancing.
Context `{!Random}.
Variables (global : rng) (le : LabelEncoder) (X : list row) (y_encoded : list nat).
Variable normal_class_id : nat.

Let df_to_balance := zip X y_encoded.
Let df_failures := filter (λ r : row * nat, r.2 ≠ normal_class_id) df_to_balance.
Let df_normal := filter (λ r : row * nat, r.2 = normal_class_id) df_to_balance.



End balancing.



(** ** Seeds *)

Section reproducible.
Context `{!Numeric} `{!Random} `{!Learn}.



End reproducible.




(** * Accounts and sessions *)

Section accounts.
Context `{!Hashlib} `{!Re}.


Lemma authenticate_spec s username pw :
  authenticate s username pw = true ↔
  ∃ u, ss_users s !! username = Some u ∧ pw_hash u = hash_password pw.
Proof.
  unfold authenticate. destruct (ss_users s !! username) as [u|].
  - rewrite String.eqb_eq. split; [eauto|]. by intros (u' & [= <-] & ?).
  - split; [done|]. by intros (u' & ? & _).
Qed.

(** What a successful sign-up did. *)
Lemma signup_created s full email mobile username password password2 s' :
  signup_submit s full email mobile username password password2
  = (s', AccountCreated) →
  ss_users s !! username = None
  ∧ password2 = password
  ∧ truthy username = true ∧ truthy password = true
  ∧ re_match email_pattern email = true
  ∧ re_match mobile_pattern (remove_spaces mobile) = true
  ∧ s' = set_users s
           (<[username := {| pw_hash := hash_password password;
                             full_name := full; email := email; cars := [];
                             mobile := Some (remove_spaces mobile) |}]>
              (ss_users s)).
Proof.
  unfold signup_submit, create_user.
  destruct (truthy username) eqn:Hu; [|done].
  destruct (truthy password) eqn:Hp; [|done].
  destruct (truthy full), (truthy email), (truthy mobile); try done. simpl.
  destruct (re_match email_pattern email); [|done].
  destruct (re_match mobile_pattern (remove_spaces mobile)); [|done]. simpl.
  destruct (String.eqb_spec password password2) as [<-|]; [|done]. simpl.
  destruct (decide (is_Some (ss_users s !! username))) as [|Hfree]; [done|].
  intros [= <-]. apply eq_None_not_Some in Hfree.
  repeat split; try done.
  unfold set_users. simpl. f_equal.
  apply map_eq. intros k. destruct (decide (k = username)) as [->|Hk].
  - by rewrite lookup_alter_eq, !lookup_insert_eq.
  - by rewrite lookup_alter_ne, !lookup_insert_ne.
Qed.

End accounts.



Section accounts_kept.
Context `{!Hashlib} `{!Re}.

Lemma create_user_keeps s username pw full email name u :
  ss_users s !! name = Some u →
  ss_users (create_user s username pw full email).1 !! name = Some u.
Proof.
  intros Hu. unfold create_user.
  destruct (decide (is_Some (ss_users s !! username))) as [|Hfree]; [done|].
  simpl. rewrite lookup_insert_ne; [done|]. intros ->.
  apply Hfree. by rewrite Hu.
Qed.

Lemma signup_outcome s full email mobile username password password2 :
  let r := signup_submit s full email mobile username password password2 in
  r.1 = s ∨ r.2 = AccountCreated.
Proof.
  unfold signup_submit.
  destruct (negb _); [by left|].
  destruct (negb _); [by left|].
  destruct (negb _); [by left|].
  destruct (negb _); [by left|].
  unfold create_user.
  destruct (decide (is_Some (ss_users s !! username))); [by left|by right].
Qed.

End accounts_kept.

(** X2. The Sign Up form never touches an account that exists: whatever
    is submitted, every stored record is afterwards what it was, and the
    current user and the page are unchanged; a name that is taken leaves
    the whole session as it was. *)
Theorem signup_keeps_accounts `{!Hashlib} `{!Re} (s : session)
    (full email mobile username password password2 : string) :
  let s' := (signup_submit s full email mobile username password password2).1 in
  (∀ name u, ss_users s !! name = Some u → ss_users s' !! name = Some u)
  ∧ ss_current_user s' = ss_current_user s
  ∧ ss_page s' = ss_page s
  ∧ (is_Some (ss_users s !! username) → s' = s).
Proof.
  intros s'. subst s'.
  destruct (signup_submit s full email mobile username password password2)
    as [s' fb] eqn:E.
  destruct (signup_outcome s full email mobile username password password2)
    as [Hsame|Hcreated]; rewrite E in *; simpl in *.
  - subst s'. done.
  - subst fb. apply signup_created in E as (Hfree & _ & _ & _ & _ & _ & ->).
    simpl. repeat split; try done.
    + intros name u Hu. rewrite lookup_insert_ne; [done|]. intros ->. congruence.
    + intros [u Hu]. congruence.
Qed.


(** ** What every reachable session satisfies *)

Section invariant.
Context `{!Hashlib} `{!Re}.

Lemma consistent_fresh : consistent fresh.
Proof.
  split; simpl; [done|]. intros username [u Hu]. by rewrite lookup_empty in Hu.
Qed.

Lemma consistent_same_accounts s s' :
  consistent s → ss_current_user s' = ss_current_user s →
  (∀ username, is_Some (ss_users s' !! username) ↔ is_Some (ss_users s !! username)) →
  consistent s'.
Proof.
  intros [Hcur Hall] Hc Hdom. split.
  - intros username Hu. rewrite Hc in Hu. rewrite Hdom. by apply Hcur.
  - intros username Hu%Hdom. by apply Hall.
Qed.

Lemma consistent_signup s full email mobile username password password2 :
  consistent s →
  consistent (signup_submit s full email mobile username password password2).1.
Proof.
  intros [Hcur Hall].
  destruct (signup_submit s full email mobile username password password2)
    as [s' fb] eqn:E.
  destruct (signup_outcome s full email mobile username password password2)
    as [Hsame|Hcreated]; rewrite E in *; simpl in *; [by subst s'|].
  subst fb. apply signup_created in E as (Hfree & _ & Hu & _ & _ & _ & ->).
  split; simpl.
  - intros name Hname. destruct (Hcur name Hname) as [? [u Hlook]].
    split; [done|]. rewrite lookup_insert_ne; [eauto|]. intros ->. congruence.
  - intros name. destruct (decide (name = username)) as [->|Hne]; [done|].
    rewrite lookup_insert_ne by done. apply Hall.
Qed.

Lemma consistent_login s username password :
  consistent s → consistent (login_submit s username password).1.
Proof.
  intros [Hcur Hall]. unfold login_submit.
  destruct (truthy username) eqn:Hu; [|done].
  destruct (truthy password); [|done]. simpl.
  destruct (authenticate s username password) eqn:Hauth; [|done]. simpl.
  apply authenticate_spec in Hauth as (u & Hlook & _).
  split; simpl; [|done]. intros name [= <-]. eauto.
Qed.

Lemma consistent_logout s : consistent s → consistent (logout_click s).
Proof.
  intros [Hcur Hall]. unfold logout_click. destruct (logged_in s); [|done].
  split; simpl; done.
Qed.

Lemma page_user_some s username u :
  page_user s = inr (Some (username, u)) →
  ss_current_user s = Some username ∧ truthy username = true
  ∧ ss_users s !! username = Some u.
Proof.
  unfold page_user. destruct (ss_current_user s) as [name|]; [|done].
  destruct (truthy name) eqn:Hn; [|done].
  destruct (ss_users s !! name) as [u'|] eqn:Hlook; [|done].
  by intros [= -> ->].
Qed.

Lemma consistent_update s username u u' :
  consistent s → ss_users s !! username = Some u →
  consistent (set_users s (<[username := u']> (ss_users s))).
Proof.
  intros Hs Hlook. apply (consistent_same_accounts s); [done|done|].
  intros name. simpl. destruct (decide (name = username)) as [->|Hne].
  - rewrite lookup_insert_eq, Hlook. split; eauto.
  - by rewrite lookup_insert_ne.
Qed.

Lemma consistent_add_car s make model year odometer :
  consistent s → consistent (keep s (add_car_submit s make model year odometer)).
Proof.
  intros Hs. unfold add_car_submit.
  destruct (page_user s) as [e|[[username u]|]] eqn:E; simpl; try done.
  apply page_user_some in E as (_ & _ & Hlook).
  destruct (negb _); simpl; [done|]. by eapply consistent_update.
Qed.

Lemma consistent_delete_car s i :
  consistent s → consistent (keep s (delete_car_click s i)).
Proof.
  intros Hs. unfold delete_car_click.
  destruct (page_user s) as [e|[[username u]|]] eqn:E; simpl; try done.
  apply page_user_some in E as (_ & _ & Hlook).
  destruct (cars u !! i); simpl; [|done]. by eapply consistent_update.
Qed.

Lemma consistent_step s e : consistent s → consistent (step s e).
Proof.
  intros Hs. destruct e; simpl.
  - by apply consistent_signup.
  - by apply consistent_login.
  - by apply consistent_logout.
  - by apply consistent_add_car.
  - by apply consistent_delete_car.
  - by apply (consistent_same_accounts s).
Qed.

Lemma consistent_foldl s es : consistent s → consistent (foldl step s es).
Proof.
  revert s. induction es as [|e es IH]; intros s Hs; simpl; [done|].
  by apply IH, consistent_step.
Qed.

Lemma consistent_page_user s :
  consistent s → ∃ o, page_user s = inr o.
Proof.
  intros [Hcur _]. unfold page_user.
  destruct (ss_current_user s) as [name|] eqn:E; [|eauto].
  destruct (Hcur name eq_refl) as [-> [u ->]]. eauto.
Qed.

End invariant.

(** X4. Whatever sequence of forms and buttons is applied to a fresh
    session (sign up, log in, log out, add car, delete car, run
    diagnosis), the current user, if any, has a non-empty name and an
    account, and no account has an empty name; so the lookup
    [st.session_state["users"][username]] of the Profile and Dashboard
    pages never raises [KeyError], and adding a car never raises. *)
Theorem session_stays_consistent `{!Hashlib} `{!Re} (es : list event) :
  let s := run es in
  consistent s
  ∧ (∃ o, page_user s = inr o)
  ∧ (∀ make model year odometer,
       ∃ r, add_car_submit s make model year odometer = inr r).
Proof.
  intros s.
  assert (Hs : consistent s) by apply consistent_foldl, consistent_fresh.
  split; [exact Hs|]. split; [by apply consistent_page_user|].
  intros make model year odometer. unfold add_car_submit.
  destruct (consistent_page_user s Hs) as [[[username u]|] ->]; simpl; [|eauto].
  destruct (negb _); eauto.
Qed.

(** ** Cars *)

(** X5. Adding a car and then deleting the last car of the list gives
    back the accounts as they were; the car that is removed is the one
    that was added, and the cars of the other users are never touched. *)
Theorem add_then_delete_car (s s1 : session) (make model : string)
    (year odometer : Z) (username : string) (u : user) :
  page_user s = inr (Some (username, u)) →
  add_car_submit s make model year odometer = inr (s1, CarAdded) →
  (∀ name, name ≠ username → ss_users s1 !! name = ss_users s !! name)
  ∧ (cars <$> ss_users s1 !! username)
    = Some (cars u ++ [{| make := make; car_model := model; year := year;
                          odometer := odometer |}])%list
  ∧ ∃ s2, delete_car_click s1 (length (cars u))
          = inr (s2, CarRemoved {| make := make; car_model := model;
                                   year := year; odometer := odometer |})
          ∧ ss_users s2 = ss_users s.
Proof.
  intros Hpage Hadd. unfold add_car_submit in Hadd. rewrite Hpage in Hadd.
  simpl in Hadd. destruct (negb _); [done|]. injection Hadd as <-.
  apply page_user_some in Hpage as (Hcur & Hname & Hlook).
  split; [|split].
  - intros name Hne. simpl. by rewrite lookup_insert_ne.
  - simpl. by rewrite lookup_insert_eq.
  - unfold delete_car_click, page_user. simpl.
    rewrite Hcur, Hname, lookup_insert_eq. simpl.
    rewrite lookup_app_r by done. rewrite Nat.sub_diag. simpl.
    eexists. split; [reflexivity|]. simpl.
    rewrite insert_insert_eq. unfold set_cars. simpl.
    replace (delete (length (cars u)) (cars u ++ [_])%list) with (cars u).
    + apply insert_id. by destruct u.
    + by rewrite delete_middle, app_nil_r.
Qed.

Lemma add_then_delete_car_witness :
  let s := @run toy_hash accept_all [ann_signs_up; LogIn "ann" "s3cret"] in
  ∃ s1 s2,
    add_car_submit s "Honda" "Civic" 2019 42000 = inr (s1, CarAdded)
    ∧ delete_car_click s1 0 = inr (s2, CarRemoved (civic 42000))
    ∧ ss_users s2 = ss_users s.
Proof.
  intros s.
  assert (Hpage : ∃ u, page_user s = inr (Some ("ann", u)) ∧ cars u = [])
    by (eexists; split; reflexivity).
  destruct Hpage as (u & Hpage & Hcars).
  assert (Hadd : ∃ s1, add_car_submit s "Honda" "Civic" 2019 42000
                       = inr (s1, CarAdded))
    by (eexists; reflexivity).
  destruct Hadd as [s1 Hadd]. exists s1.
  destruct (add_then_delete_car s s1 "Honda" "Civic" 2019 42000 "ann" u Hpage Hadd)
    as (_ & _ & s2 & Hdel & Hsame).
  exists s2. rewrite Hcars in Hdel. done.
Defined.

Lemma index_of_first y l i :
  index_of y l = Some i →
  l !! i = Some y ∧ ∀ k, k < i → l !! k ≠ Some y.
Proof.
  revert i. induction l as [|x l IH]; intros i; simpl; [done|].
  destruct (String.eqb_spec x y) as [->|Hne].
  - intros [= <-]. split; [done|]. intros k Hk. lia.
  - destruct (index_of y l) as [j|]; simpl; [|done]. intros [= <-].
    destruct (IH j eq_refl) as [Hj Hfirst]. split; [done|].
    intros [|k] Hk; simpl; [congruence|]. apply Hfirst. lia.
Qed.

(** X6. The Dashboard finds the selected car through its label, so it
    gets the first car with that label: choosing any car of the list never
    raises, and it returns that very car when no earlier car has the same
    make, model and year label; otherwise the earlier car (with its own
    odometer) is used. *)
Theorem select_car_first (cs : list car) (i : nat) (c : car) :
  cs !! i = Some c →
  ∃ j c', select_car cs (car_label c) = inr c'
          ∧ cs !! j = Some c' ∧ (j ≤ i)%nat
          ∧ car_label c' = car_label c
          ∧ (∀ k ck, (k < j)%nat → cs !! k = Some ck → car_label ck ≠ car_label c)
          ∧ ((∀ k ck, (k < i)%nat → cs !! k = Some ck → car_label ck ≠ car_label c) →
             c' = c).
Proof.
  intros Hi. unfold select_car.
  destruct (index_of_elem (car_label c) (car_label <$> cs)) as [j Hj].
  { apply list_elem_of_fmap. exists c. split; [done|]. by eapply list_elem_of_lookup_2. }
  rewrite Hj. apply index_of_first in Hj as [Hj Hfirst].
  rewrite list_lookup_fmap in Hj.
  destruct (cs !! j) as [c'|] eqn:Hc'; [|done]. injection Hj as Hlabel.
  assert (Hle : (j ≤ i)%nat).
  { destruct (decide (j ≤ i)%nat) as [|Hgt]; [done|]. exfalso.
    apply (Hfirst i); [lia|]. by rewrite list_lookup_fmap, Hi. }
  exists j, c'. repeat split; try done.
  - intros k ck Hk Hck Heq. apply (Hfirst k Hk).
    by rewrite list_lookup_fmap, Hck, <- Heq.
  - intros Hnone. destruct (decide (j = i)) as [->|Hne]; [congruence|].
    exfalso. apply (Hnone j c'); [lia|done|done].
Qed.

Lemma select_car_first_witness :
  [civic 42000; civic 97000] !! 1 = Some (civic 97000)
  ∧ select_car [civic 42000; civic 97000] (car_label (civic 97000))
    = inr (civic 42000).
Proof.
  split; [reflexivity|].
  destruct (select_car_first [civic 42000; civic 97000] 1 (civic 97000) eq_refl)
    as (j & c' & Hsel & _).
  vm_compute. reflexivity.
Defined.


(** ** What the rules read *)

Section reads.
Variables data data' : dict.

Lemma eval_cond_agree c :
  (∀ k, k ∈ keys_read c → data !! k = data' !! k) →
  eval_cond data c = eval_cond data' c.
Proof.
  induction c as [k x|k x|k d x|a IHa b IHb]; simpl; intros Hk.
  - unfold getitem. by rewrite (Hk k) by apply list_elem_of_here.
  - unfold getitem. by rewrite (Hk k) by apply list_elem_of_here.
  - unfold get. by rewrite (Hk k) by apply list_elem_of_here.
  - rewrite IHa, IHb; [done| |]; intros k Hin; apply Hk, elem_of_app; auto.
Qed.

Lemma prefix_agree rules :
  (∀ r k, r ∈ rules → k ∈ keys_read r.1 → data !! k = data' !! k) →
  fired_alerts data (evaluated_prefix data rules)
  = fired_alerts data' (evaluated_prefix data' rules).
Proof.
  induction rules as [|r rs IH]; intros Hk; [done|]. simpl.
  assert (Hr : eval_cond data r.1 = eval_cond data' r.1).
  { apply eval_cond_agree. intros k. apply Hk, list_elem_of_here. }
  unfold evaluates. rewrite <- Hr.
  destruct (eval_cond data r.1) as [e|b] eqn:E; [done|].
  rewrite !fired_alerts_cons. unfold fires. rewrite <- Hr, E. f_equal.
  apply IH. intros r' k Hr'. apply Hk. by apply list_elem_of_further.
Qed.

End reads.

(** X7. The result of [check_custom_rules] depends on the eleven sensor
    keys of the rules only: two readings that agree on them get the same
    alerts, whatever else they hold (the ["car"] and ["fuel_level_pct"]
    entries of the Dashboard's reading, say). *)
Theorem check_custom_rules_reads_only (data data' : dict) :
  (∀ k, k ∈ [ "odometer_km"; "engine_temp_c"; "battery_voltage_v";
              "oil_pressure_kpa"; "brake_pad_wear_mm_front";
              "brake_pad_wear_mm_rear"; "suspension_health_pct";
              "tire_pressure_psi_fl"; "coolant_level_pct";
              "brake_fluid_level_pct"; "transmission_fluid_temp_c" ] →
        data !! k = data' !! k) →
  check_custom_rules data = check_custom_rules data'.
Proof.
  intros Hk. rewrite !check_custom_rules_table. apply prefix_agree.
  intros r k Hr Hin. apply Hk.
  assert (Hrule : k ∈ rule_keys).
  { unfold rule_keys. apply list_elem_of_join. exists (keys_read r.1).
    split; [done|]. apply list_elem_of_fmap. eauto. }
  exact Hrule.
Qed.

Lemma check_custom_rules_reads_only_witness :
  check_custom_rules all_thresholds
  = check_custom_rules (<["fuel_level_pct" := PStr "n/a"]> all_thresholds).
Proof.
  apply check_custom_rules_reads_only. intros k Hk.
  rewrite lookup_insert_ne; [reflexivity|].
  intros <-. vm_compute in Hk.
  repeat (apply elem_of_cons in Hk as [Hk|Hk]; [discriminate Hk|]).
  by apply elem_of_nil in Hk.
Defined.

(** ** From the Dashboard to the Detailed Analysis page *)

Section dashboard.
Variables (car : pyval).
Variables (odometer_km engine_temp_c battery_voltage_v oil_pressure_kpa
             brake_wear_front : number).

Let data : dict :=
  diagnosis_input car odometer_km engine_temp_c battery_voltage_v
    oil_pressure_kpa brake_wear_front.

Lemma dashboard_numeric : numeric_reading data.
Proof.
  split.
  - intros k Hk. unfold required_keys in Hk.
    repeat (apply elem_of_cons in Hk as [->|Hk]; [eexists; reflexivity|]).
    by apply elem_of_nil in Hk.
  - right. eexists. reflexivity.
Qed.

Lemma dashboard_due l :
  alert_due data l ↔
  (l = "Maintenance Due / High Mileage Warning" ∧ above odometer_km 300000)
  ∨ (l = "Engine Overheating" ∧ above engine_temp_c 110)
  ∨ (l = "Battery Failure" ∧ below battery_voltage_v 12.0)
  ∨ (l = "Low Oil Pressure Warning" ∧ below oil_pressure_kpa 150)
  ∨ (l = "Brake Pads Critically Worn" ∧ below brake_wear_front 3).
Proof.
  split.
  - intros (c & Hin & Hc). unfold threshold_table in Hin.
    repeat (apply elem_of_cons in Hin as [Hin|Hin];
            [injection Hin as -> ->; simpl in Hc|]);
      try (by apply elem_of_nil in Hin);
      try (destruct Hc as (n & [= <-] & Hn); by eauto 10);
      try (destruct Hc as (n & [= <-] & Hn); by vm_compute in Hn).
    destruct Hc as [(n & [= <-] & Hn)|[(n & [= <-] & Hn)|[[=] _]]]; eauto 10.
  - intros [[-> H]|[[-> H]|[[-> H]|[[-> H]|[-> H]]]]].
    + exists (Above "odometer_km" 300000). split; [pick_row|].
      simpl. eexists. split; [reflexivity|done].
    + exists (Above "engine_temp_c" 110). split; [pick_row|].
      simpl. eexists. split; [reflexivity|done].
    + exists (Below "battery_voltage_v" 12.0). split; [pick_row|].
      simpl. eexists. split; [reflexivity|done].
    + exists (Below "oil_pressure_kpa" 150). split; [pick_row|].
      simpl. eexists. split; [reflexivity|done].
    + exists (Either (Below "brake_pad_wear_mm_front" 3)
                     (BelowDefault "brake_pad_wear_mm_rear" 3 3)).
      split; [pick_row|]. simpl. left. eexists. split; [reflexivity|done].
Qed.

End dashboard.

(** X8. On the reading the Dashboard builds, no rule aborts and the
    alerts are exactly those of the five entered vitals whose threshold is
    crossed (the rear brake wear is the front one); suspension, tyre
    pressure, coolant, brake fluid and transmission are stored as fixed
    healthy values, so their five alerts can never appear. *)
Theorem dashboard_alerts (car : pyval)
    (odometer_km engine_temp_c battery_voltage_v oil_pressure_kpa
       brake_wear_front : number) :
  let data := diagnosis_input car odometer_km engine_temp_c battery_voltage_v
                oil_pressure_kpa brake_wear_front in
  (∀ l, l ∈ check_custom_rules data ↔
      (l = "Maintenance Due / High Mileage Warning" ∧ above odometer_km 300000)
      ∨ (l = "Engine Overheating" ∧ above engine_temp_c 110)
      ∨ (l = "Battery Failure" ∧ below battery_voltage_v 12.0)
      ∨ (l = "Low Oil Pressure Warning" ∧ below oil_pressure_kpa 150)
      ∨ (l = "Brake Pads Critically Worn" ∧ below brake_wear_front 3))
  ∧ (∀ l, l ∈ [ "Suspension Failure Risk"; "Low Tire Pressure";
                "Coolant Critically Low"; "Brake Fluid Critically Low";
                "Transmission Overheating" ] →
          l ∉ check_custom_rules data)
  ∧ check_custom_rules data = fail_open data.
Proof.
  intros data.
  assert (Hexact : ∀ l, l ∈ check_custom_rules data ↔ _)
    by (intros l; rewrite (numeric_reading_exact data (dashboard_numeric _ _ _ _ _ _) l);
        apply dashboard_due).
  split; [exact Hexact|]. split.
  - intros l Hl Hin. apply Hexact in Hin.
    repeat (apply elem_of_cons in Hl as [->|Hl];
            [by destruct Hin as [[? _]|[[? _]|[[? _]|[[? _]|[? _]]]]]|]).
    by apply elem_of_nil in Hl.
  - rewrite check_custom_rules_table, evaluated_prefix_all; [done|].
    pose proof (numeric_reading_table data (dashboard_numeric _ _ _ _ _ _)) as Hall.
    eapply Forall_impl; [exact Hall|]. intros [c l] Hc. unfold evaluates.
    simpl in *. by destruct (eval_cond_numeric data c Hc) as (b & -> & _).
Qed.

Section analysis.
Context `{!Numeric}.
Variables (a : assets) (s : session).

Lemma analysis_user_ok :
  consistent s →
  ∃ u, match current_user s with
       | Some username =>
           if truthy username
           then match ss_users s !! username with
                | Some u => inr u
                | None => inl (KeyError username)
                end
           else inr guest
       | None => inr guest
       end = inr u.
Proof.
  intros [Hcur _]. unfold current_user.
  destruct (ss_current_user s) as [name|] eqn:E; [|eauto].
  destruct (Hcur name eq_refl) as [-> [u ->]]. eauto.
Qed.

Lemma analysis_missing_key data k :
  ss_diagnosis_input s = Some data → k ∈ page_keys → data !! k = None →
  ∃ k', detailed_analysis a s = inl (KeyError k').
Proof.
  intros Hd Hk Hnone. unfold detailed_analysis. rewrite Hd. unfold getitem.
  unfold page_keys in Hk.
  repeat (apply elem_of_cons in Hk as [->|Hk];
          [rewrite ?Hnone;
           repeat match goal with
                  | |- context [match ?o with _ => _ end] =>
                      destruct o; simpl; eauto
                  end|]).
  by apply elem_of_nil in Hk.
Qed.

End analysis.

(** X9. After Run Diagnosis in a session where the logged-in user has an
    account (every session reached through the handlers), the Detailed
    Analysis page gets through its own subscripts and returns what the
    diagnosis block returns on the Dashboard's reading; when an artifact
    is missing this is the set of rule alerts with the "Model not loaded"
    label and confidence 0. *)
Theorem dashboard_then_analysis `{!Numeric} (a : assets) (s : session)
    (car : pyval)
    (odometer_km engine_temp_c battery_voltage_v oil_pressure_kpa
       brake_wear_front : number) :
  consistent s →
  let data := diagnosis_input car odometer_km engine_temp_c battery_voltage_v
                oil_pressure_kpa brake_wear_front in
  let s' := run_diagnosis s data in
  ss_page s' = Some "Detailed Analysis"
  ∧ detailed_analysis a s' = (diagnose a data ≫= λ verdict, mret (Some verdict))
  ∧ (model a = None ∨ scaler a = None ∨ encoder a = None
     ∨ training_columns a = None →
     detailed_analysis a s'
     = inr (Some (list_to_set (check_custom_rules data), "Model not loaded",
                  Fin 0))).
Proof.
  intros Hs data s'.
  assert (Hpage : detailed_analysis a s'
                  = (diagnose a data ≫= λ verdict, mret (Some verdict))).
  { assert (Huser : ss_current_user s = None
                    ∨ ∃ name u, ss_current_user s = Some name
                                ∧ truthy name = true
                                ∧ ss_users s !! name = Some u).
    { destruct Hs as [Hcur _]. destruct (ss_current_user s) as [name|]; [|by left].
      destruct (Hcur name eq_refl) as [? [u ?]]. right. eauto. }
    unfold detailed_analysis, s', run_diagnosis, current_user in *.
    cbn [ss_diagnosis_input ss_current_user ss_users].
    unfold getitem.
    replace (data !! "car") with (Some car) by reflexivity.
    cbn [mbind result_bind].
    assert (Hrest :
      (match data !! "odometer_km" with
       | Some v => inr v
       | None => inl (KeyError "odometer_km")
       end
       ≫= λ _ : pyval,
         match data !! "engine_temp_c" with
         | Some v => inr v
         | None => inl (KeyError "engine_temp_c")
         end
         ≫= λ _ : pyval,
           match data !! "battery_voltage_v" with
           | Some v => inr v
           | None => inl (KeyError "battery_voltage_v")
           end
           ≫= λ _ : pyval,
             match data !! "oil_pressure_kpa" with
             | Some v => inr v
             | None => inl (KeyError "oil_pressure_kpa")
             end
             ≫= λ _ : pyval,
               match data !! "brake_pad_wear_mm_front" with
               | Some v => inr v
               | None => inl (KeyError "brake_pad_wear_mm_front")
               end
               ≫= λ _ : pyval,
                 diagnose a data
                 ≫= λ verdict : gset string * string * number, mret (Some verdict))
      = (diagnose a data ≫= λ verdict, mret (Some verdict))).
    { reflexivity. }
    destruct Huser as [->|(name & u & -> & -> & ->)]; cbn [mbind result_bind];
      exact Hrest. }
  split; [done|]. split; [exact Hpage|].
  intros Habsent. rewrite Hpage. by rewrite (diagnose_not_loaded a data Habsent).
Qed.

Lemma dashboard_then_analysis_witness :
  let s := @run toy_hash accept_all [ann_signs_up; LogIn "ann" "s3cret"] in
  let data := diagnosis_input PNone (Fin 310000) (Fin 95) (Fin 13.8) (Fin 320)
                (Fin 7.5) in
  consistent s
  ∧ @detailed_analysis exact_arith nothing_loaded (run_diagnosis s data)
    = inr (Some (list_to_set (check_custom_rules data), "Model not loaded", Fin 0)).
Proof.
  intros s data.
  assert (Hs : consistent s)
    by (apply (@consistent_foldl toy_hash accept_all), consistent_fresh).
  split; [exact Hs|].
  refine (proj2 (proj2 (@dashboard_then_analysis exact_arith nothing_loaded s PNone
                          (Fin 310000) (Fin 95) (Fin 13.8) (Fin 320) (Fin 7.5) Hs)) _).
  left. reflexivity.
Defined.

(** X10. The Detailed Analysis page has no soft failure of its own: when
    the stored reading lacks ["car"] or one of the five vitals it
    subscripts itself (odometer, engine temperature, battery voltage, oil
    pressure, front brake wear), the page raises [KeyError] before the
    rules are evaluated, whatever the artifacts are. *)
Theorem analysis_needs_vitals `{!Numeric} (a : assets) (s : session)
    (data : dict) (k : string) :
  ss_diagnosis_input s = Some data →
  k ∈ [ "car"; "odometer_km"; "engine_temp_c"; "battery_voltage_v";
        "oil_pressure_kpa"; "brake_pad_wear_mm_front" ] →
  data !! k = None →
  ∃ k', detailed_analysis a s = inl (KeyError k').
Proof. apply analysis_missing_key. Qed.

Lemma analysis_needs_vitals_witness :
  let data := delete "odometer_km"
                (diagnosis_input PNone (Fin 310000) (Fin 95) (Fin 13.8) (Fin 320)
                   (Fin 7.5)) in
  data !! "odometer_km" = None
  ∧ check_custom_rules data = []
  ∧ ∃ k', @detailed_analysis exact_arith nothing_loaded (run_diagnosis fresh data)
          = inl (KeyError k').
Proof.
  intros data. split; [reflexivity|]. split; [vm_compute; reflexivity|].
  apply (@analysis_needs_vitals exact_arith nothing_loaded
           (run_diagnosis fresh data) data "odometer_km").
  - reflexivity.
  - apply list_elem_of_further, list_elem_of_here.
  - reflexivity.
Defined.

(** * The adapter once the artifacts are loaded *)

Section loaded.
Context `{!Numeric}.

Lemma engineer_other (data : dict) k :
  k ≠ "temp_pressure_ratio" → k ≠ "total_brake_wear" →
  engineer data !! k = data !! k.
Proof.
  intros H1 H2. unfold engineer, add_total_brake_wear.
  destruct (_ ≫= _); rewrite lookup_insert_ne by done; by apply engineer_source.
Qed.

Lemma engineer_derived (data : dict) :
  is_Some (engineer data !! "temp_pressure_ratio")
  ∧ is_Some (engineer data !! "total_brake_wear").
Proof.
  split.
  - rewrite engineer_ratio. unfold add_temp_pressure_ratio.
    destruct (_ ≫= _); rewrite lookup_insert_eq; eauto.
  - unfold engineer, add_total_brake_wear.
    destruct (_ ≫= _); rewrite lookup_insert_eq; eauto.
Qed.



End loaded.

(** X11. Feature engineering never drops or changes an entry of the
    reading and always defines both derived columns, so a training column
    that the reading (or the engineering step) provides is never
    zero-filled by the reindexing: the vector given to the scaler carries
    the reading's own value at that position. *)
Theorem engineer_keeps_reading `{!Numeric} (data : dict) (cols : list string) :
  (∀ k, k ≠ "temp_pressure_ratio" → k ≠ "total_brake_wear" →
        engineer data !! k = data !! k)
  ∧ is_Some (engineer data !! "temp_pressure_ratio")
  ∧ is_Some (engineer data !! "total_brake_wear")
  ∧ (∀ i c v, cols !! i = Some c → data !! c = Some v →
              c ≠ "temp_pressure_ratio" → c ≠ "total_brake_wear" →
              reindex (engineer data) cols (PNum (Fin 0)) !! i = Some (c, v))
  ∧ ((∀ c, c ∈ cols → c ≠ "temp_pressure_ratio" → c ≠ "total_brake_wear" →
           is_Some (data !! c)) →
     ∀ i c v, reindex (engineer data) cols (PNum (Fin 0)) !! i = Some (c, v) →
              engineer data !! c = Some v).
Proof.
  split; [apply engineer_other|].
  split; [apply engineer_derived|]. split; [apply engineer_derived|]. split.
  - intros i c v Hc Hv H1 H2.
    by rewrite (reindex_lookup _ _ _ i c Hc), engineer_other, Hv.
  - intros Hall i c v. unfold reindex. rewrite list_lookup_fmap.
    destruct (cols !! i) as [c'|] eqn:Hc; simpl; [|done]. intros [= -> <-].
    assert (Hsome : is_Some (engineer data !! c)).
    { destruct (decide (c = "temp_pressure_ratio")) as [->|H1];
        [apply engineer_derived|].
      destruct (decide (c = "total_brake_wear")) as [->|H2];
        [apply engineer_derived|].
      rewrite engineer_other by done. apply Hall; [|done|done].
      by eapply list_elem_of_lookup_2. }
    destruct Hsome as [v ->]. done.
Qed.



(** * The label encoder and the cleaning of the training frame *)

Lemma mapM_inr {A B} (f : A → result B) (l : list A) (k : list B) :
  mapM f l = inr k ↔ Forall2 (λ x y, f x = inr y) l k.
Proof.
  revert k. induction l as [|x l IH]; intros k; simpl.
  - split; [intros [= <-]; constructor|by inversion 1].
  - destruct (f x) as [e|y] eqn:Ex; simpl.
    { split; [done|]. inversion 1; congruence. }
    destruct (mapM f l) as [e|k'] eqn:El; simpl.
    { split; [done|]. inversion 1 as [|? y' ? k'' Hy Hk]; subst.
      by apply IH in Hk. }
    split.
    + intros [= <-]. constructor; [done|]. by apply IH.
    + inversion 1 as [|? y' ? k'' Hy Hk]; subst.
      apply IH in Hk. rewrite Ex in Hy.
      injection Hy as ->. injection Hk as ->. reflexivity.
Qed.

Lemma mapM_total {A B} (f : A → result B) (l : list A) :
  (∀ x, x ∈ l → ∃ y, f x = inr y) → ∃ k, mapM f l = inr k.
Proof.
  induction l as [|x l IH]; intros Hf; simpl; [eauto|].
  destruct (Hf x) as [y ->]; [apply list_elem_of_here|].
  destruct IH as [k ->]; [|simpl; eauto].
  intros z Hz. apply Hf. by apply list_elem_of_further.
Qed.

Lemma compare_gt_lt y z :
  String.compare y z = Gt → OrderedTypeEx.String_as_OT.lt z y.
Proof.
  intros Hgt. apply OrderedTypeEx.String_as_OT.cmp_lt.
  unfold OrderedTypeEx.String_as_OT.cmp.
  rewrite String.compare_antisym, Hgt. done.
Qed.

Lemma insert_unique_sorted y l :
  StronglySorted OrderedTypeEx.String_as_OT.lt l →
  StronglySorted OrderedTypeEx.String_as_OT.lt (insert_unique y l).
Proof.
  induction 1 as [|z l Hs IH Hz]; simpl.
  - repeat constructor.
  - destruct (String.compare y z) eqn:E.
    + by constructor.
    + apply OrderedTypeEx.String_as_OT.cmp_lt in E.
      constructor; [by constructor|]. constructor; [done|].
      eapply Forall_impl; [exact Hz|]. intros w Hw.
      by eapply OrderedTypeEx.String_as_OT.lt_trans.
    + constructor; [done|]. apply Forall_forall. intros w Hw.
      apply elem_of_insert_unique in Hw as [->|Hw].
      * by apply compare_gt_lt.
      * rewrite Forall_forall in Hz. by apply Hz.
Qed.

Lemma np_unique_sorted ys :
  StronglySorted OrderedTypeEx.String_as_OT.lt (np_unique ys).
Proof.
  unfold np_unique. induction ys as [|y ys IH]; simpl; [constructor|].
  by apply insert_unique_sorted.
Qed.

Lemma sorted_NoDup l :
  StronglySorted OrderedTypeEx.String_as_OT.lt l → NoDup l.
Proof.
  induction 1 as [|z l Hs IH Hz]; constructor; [|done].
  intros Hin. rewrite Forall_forall in Hz.
  by apply (OrderedTypeEx.String_as_OT.lt_not_eq z z (Hz z Hin)).
Qed.

(** X13. Fitting the label encoder never fails; its vocabulary is the set
    of labels seen, in strictly increasing order and so without
    duplicates; and every label of the training column is encoded to a
    code that [inverse_transform] decodes back to that label. *)
Theorem label_encoding_round_trip (ys : list string) :
  ∃ codes,
    le_fit_transform ys = inr ({| classes_ := np_unique ys |}, codes)
    ∧ length codes = length ys
    ∧ StronglySorted OrderedTypeEx.String_as_OT.lt (np_unique ys)
    ∧ NoDup (np_unique ys)
    ∧ (∀ y, y ∈ np_unique ys ↔ y ∈ ys)
    ∧ (∀ i y, ys !! i = Some y →
         ∃ c, codes !! i = Some c
              ∧ le_transform {| classes_ := np_unique ys |} y = inr c
              ∧ le_inverse_transform {| classes_ := np_unique ys |} c = inr y).
Proof.
  unfold le_fit_transform.
  destruct (mapM_total (le_transform {| classes_ := np_unique ys |}) ys)
    as [codes Hcodes].
  { intros y Hy. by apply le_transform_fitted. }
  exists codes. rewrite Hcodes. simpl. split; [done|].
  apply mapM_inr in Hcodes.
  split; [by rewrite (Forall2_length _ _ _ Hcodes)|].
  split; [apply np_unique_sorted|].
  split; [apply sorted_NoDup, np_unique_sorted|].
  split; [intros y; apply elem_of_np_unique|].
  intros i y Hy.
  destruct (Forall2_lookup_l _ _ _ i y Hcodes Hy) as (c & Hc & Hyc).
  exists c. split; [done|]. split; [done|].
  unfold le_transform in Hyc. unfold le_inverse_transform. simpl in *.
  destruct (index_of y (np_unique ys)) as [j|] eqn:Ej; [|done].
  injection Hyc as <-. by rewrite (index_of_lookup _ _ _ Ej).
Qed.

Lemma le_fit_transform_total (ys : list string) :
  ∃ codes, le_fit_transform ys = inr ({| classes_ := np_unique ys |}, codes).
Proof.
  unfold le_fit_transform.
  destruct (mapM_total (le_transform {| classes_ := np_unique ys |}) ys)
    as [codes ->]; [|simpl; eauto].
  intros y Hy. by apply le_transform_fitted.
Qed.

Lemma index_of_absent y classes : y ∉ classes → index_of y classes = None.
Proof.
  intros Hy. destruct (index_of y classes) as [i|] eqn:E; [|done].
  apply index_of_lookup in E. exfalso. apply Hy.
  by eapply list_elem_of_lookup_2.
Qed.

Lemma index_of_present y classes i : index_of y classes = Some i → y ∈ classes.
Proof. intros E%index_of_lookup. by eapply list_elem_of_lookup_2. Qed.

Section cleaning.
Context `{!Numeric}.

Lemma assign_rows c f df df' :
  assign c f df = inr df' →
  columns df' = with_column c (columns df)
  ∧ Forall2 (λ r r', ∃ v, f r = inr v ∧ r' = <[c := v]> r) (rows df) (rows df').
Proof.
  unfold assign.
  destruct (mapM _ (rows df)) as [e|rs] eqn:E; simpl; [done|].
  intros [= <-]. simpl. split; [done|].
  apply mapM_inr in E. eapply Forall2_impl; [exact E|].
  intros r r' Hr. simpl in Hr.
  destruct (f r) as [e|v]; simpl in Hr; [done|]. injection Hr as <-. eauto.
Qed.

(** The frame after [fillna], [dropna] and [astype(str)]. *)
Lemma preprocess_rows df df' :
  preprocess df = inr df' →
  "failure_type" ∈ columns df
  ∧ columns df'
    = with_column "total_brake_wear"
        (with_column "temp_pressure_ratio" (columns df))
  ∧ Forall2 (λ r r', ∃ v w, r' = <["total_brake_wear" := w]>
                                   (<["temp_pressure_ratio" := v]> r))
      (rows (astype_str "failure_type"
               (dropna (fillna "failure_type" (PStr "None") df))))
      (rows df').
Proof.
  unfold preprocess, require_column.
  destruct (bool_decide (_ ∈ columns df)) eqn:Hft; simpl; [|done].
  apply bool_decide_eq_true in Hft.
  destruct (bool_decide ("engine_temp_c" ∈ _)); simpl; [|done].
  destruct (bool_decide ("oil_pressure_kpa" ∈ _)); simpl; [|done].
  destruct (assign "temp_pressure_ratio" _ _) as [e|df1] eqn:E1; simpl; [done|].
  destruct (bool_decide ("brake_pad_wear_mm_front" ∈ _)); simpl; [|done].
  destruct (bool_decide ("brake_pad_wear_mm_rear" ∈ _)); simpl; [|done].
  intros E2. apply assign_rows in E1 as [Hc1 Hr1], E2 as [Hc2 Hr2].
  split; [done|]. split; [by rewrite Hc2, Hc1|].
  eapply Forall2_trans; [|exact Hr1|exact Hr2].
  intros r r1 r2 (v & _ & ->) (w & _ & ->). eauto.
Qed.

End cleaning.

Section cleaned_rows.
Context `{!Numeric}.
Variable df : DataFrame.

Let cleaned : DataFrame :=
  astype_str "failure_type" (dropna (fillna "failure_type" (PStr "None") df)).

Lemma complete_spec (r : row) :
  forallb (λ c, negb (isna (r !! c))) (columns df) = true ↔
  ∀ c, c ∈ columns df → isna (r !! c) = false.
Proof.
  rewrite forallb_forall. split.
  - intros Hall c Hc%list_elem_of_In. apply negb_true_iff. by apply Hall.
  - intros Hall c Hc%list_elem_of_In. apply negb_true_iff. by apply Hall.
Qed.

Lemma cleaned_row rc :
  "failure_type" ∈ columns df → rc ∈ rows cleaned →
  (∃ s, rc !! "failure_type" = Some (PStr s))
  ∧ ∀ c, c ∈ columns df → isna (rc !! c) = false.
Proof.
  intros Hft Hrc. unfold cleaned, astype_str, dropna, fillna in Hrc. simpl in Hrc.
  apply list_elem_of_fmap in Hrc as (r2 & -> & Hr2).
  apply list_elem_of_filter in Hr2 as [Hc _].
  pose proof (proj1 (complete_spec r2) Hc) as Hcomplete. clear Hc.
  pose proof (Hcomplete _ Hft) as Hlabel.
  destruct (r2 !! "failure_type") as [v|] eqn:Ev; [|done].
  split; [rewrite lookup_insert_eq; eauto|].
  intros c Hc. destruct (decide (c = "failure_type")) as [->|Hne].
  - by rewrite lookup_insert_eq.
  - rewrite lookup_insert_ne by done. by apply Hcomplete.
Qed.

Lemma unlabelled_row_cleaned r :
  r ∈ rows df → isna (r !! "failure_type") = true →
  (∀ c, c ∈ columns df → c ≠ "failure_type" → isna (r !! c) = false) →
  <["failure_type" := PStr "None"]> r ∈ rows cleaned.
Proof.
  intros Hr Hna Hrest. unfold cleaned, astype_str, dropna, fillna. simpl.
  apply list_elem_of_fmap. exists (<["failure_type" := PStr "None"]> r). split.
  - rewrite lookup_insert_eq. simpl. by rewrite insert_insert_eq.
  - apply list_elem_of_filter. split.
    + apply complete_spec. intros c Hc.
      destruct (decide (c = "failure_type")) as [->|Hne].
      * by rewrite lookup_insert_eq.
      * rewrite lookup_insert_ne by done. by apply Hrest.
    + apply list_elem_of_fmap. exists r. split; [|done]. by rewrite Hna.
Qed.

Lemma cleaned_length : (length (rows cleaned) ≤ length (rows df))%nat.
Proof.
  unfold cleaned, astype_str, dropna, fillna. simpl.
  rewrite length_fmap. etrans; [apply length_filter|]. by rewrite length_fmap.
Qed.

End cleaned_rows.

(** X14. When the cleaning and feature engineering of the training script
    complete, every remaining row has a text label and no missing cell in
    any column of the file; a row of the file whose only missing cell is
    its failure type is kept, with the label "None" and its sensor values
    unchanged (the label is filled before incomplete rows are dropped);
    and no row is added. *)
Theorem preprocess_labels `{!Numeric} (df df' : DataFrame) :
  preprocess df = inr df' →
  (∀ r', r' ∈ rows df' →
     (∃ label, r' !! "failure_type" = Some (PStr label) ∧ label_of r' = label)
     ∧ ∀ c, c ∈ columns df → c ≠ "temp_pressure_ratio" →
            c ≠ "total_brake_wear" → isna (r' !! c) = false)
  ∧ (∀ r, r ∈ rows df → isna (r !! "failure_type") = true →
       (∀ c, c ∈ columns df → c ≠ "failure_type" → isna (r !! c) = false) →
       ∃ r', r' ∈ rows df' ∧ label_of r' = "None"
             ∧ ∀ c, c ≠ "failure_type" → c ≠ "temp_pressure_ratio" →
                    c ≠ "total_brake_wear" → r' !! c = r !! c)
  ∧ (length (rows df') ≤ length (rows df))%nat.
Proof.
  intros (Hft & _ & Hrows)%preprocess_rows. split; [|split].
  - intros r' (i & Hi)%list_elem_of_lookup_1.
    destruct (Forall2_lookup_r _ _ _ i r' Hrows Hi) as (rc & Hrc & v & w & ->).
    apply list_elem_of_lookup_2 in Hrc.
    destruct (cleaned_row df rc Hft Hrc) as [[label Hlabel] Hcomplete].
    split.
    + exists label. unfold label_of. rewrite !lookup_insert_ne by done.
      by rewrite Hlabel.
    + intros c Hc H1 H2. rewrite !lookup_insert_ne by done. by apply Hcomplete.
  - intros r Hr Hna Hrest.
    pose proof (unlabelled_row_cleaned df r Hr Hna Hrest) as Hin.
    apply list_elem_of_lookup_1 in Hin as [i Hi].
    destruct (Forall2_lookup_l _ _ _ i _ Hrows Hi) as (r' & Hr' & v & w & ->).
    eexists. split; [by eapply list_elem_of_lookup_2|]. split.
    + unfold label_of. rewrite !lookup_insert_ne by done.
      by rewrite lookup_insert_eq.
    + intros c H0 H1 H2. by rewrite !lookup_insert_ne.
  - rewrite <- (Forall2_length _ _ _ Hrows). apply cleaned_length.
Qed.

Lemma preprocess_labels_witness :
  ∃ df',
    @preprocess exact_arith toy_frame = inr df'
    ∧ ∃ r', r' ∈ rows df' ∧ @label_of exact_arith r' = "None"
            ∧ r' !! "engine_temp_c" = Some (PNum (Fin 90)).
Proof.
  destruct (@preprocess exact_arith toy_frame) as [e|df'] eqn:E;
    [vm_compute in E; discriminate E|].
  exists df'. split; [reflexivity|].
  destruct (proj1 (proj2 (@preprocess_labels exact_arith toy_frame df' E))
              (csv_row 2 90 300 8 8 (PNum NaN)))
    as (r' & Hin & Hlabel & Hsame).
  - apply list_elem_of_further, list_elem_of_here.
  - reflexivity.
  - intros c Hc Hne. simpl in Hc.
    repeat (apply elem_of_cons in Hc as [->|Hc]; [reflexivity || done|]).
    by apply elem_of_nil in Hc.
  - exists r'. split; [exact Hin|]. split; [exact Hlabel|].
    rewrite Hsame by done. reflexivity.
Defined.

(** * The steps of a completed preparation *)

Section prepared.
Context `{!Numeric} `{!Random} `{!Learn}.

Lemma prepare_inv (global : rng) (df : DataFrame) (p : prepared) :
  prepare global df = inr p →
  ∃ df' X codes,
    preprocess df = inr df'
    ∧ drop_columns ["vehicle_id"; "timestamp"; "failure_type"] df' = inr X
    ∧ le_fit_transform (label_of <$> rows df') = inr (pre_encoder p, codes)
    ∧ pre_training_columns p = columns X
    ∧ balance global (pre_encoder p) (rows X) codes = inr (pre_balanced p).
Proof.
  unfold prepare.
  destruct (preprocess df) as [e|df'] eqn:E1; simpl; [done|].
  destruct (drop_columns _ df') as [e|X] eqn:E2; simpl; [done|].
  destruct (le_fit_transform _) as [e|[le codes]] eqn:E3; simpl; [done|].
  destruct (balance global le (rows X) codes) as [e|bal] eqn:E4; simpl; [done|].
  destruct (scaler_fit_transform _) as [e|[sc Xs]]; simpl; [done|].
  destruct (stratified_split _ _) as [e|[tr te]]; simpl; [done|].
  destruct (take_rows _ tr) as [e|trs]; simpl; [done|].
  destruct (take_rows _ te) as [e|tes]; simpl; [done|].
  intros [= <-]. simpl. eauto 10.
Qed.

Lemma balance_needs_none (global : rng) le X codes bal :
  balance global le X codes = inr bal → "None" ∈ classes_ le.
Proof.
  unfold balance, le_transform.
  destruct (index_of "None" (classes_ le)) as [i|] eqn:E; simpl; [|done].
  intros _. by eapply index_of_present.
Qed.

Lemma balance_without_none (global : rng) le X codes :
  "None" ∉ classes_ le → balance global le X codes = inl ValueError.
Proof.
  intros Hnone. unfold balance, le_transform.
  by rewrite (index_of_absent _ _ Hnone).
Qed.

Lemma drop_columns_columns cs df X :
  drop_columns cs df = inr X → columns X = filter (λ c, c ∉ cs) (columns df).
Proof.
  unfold drop_columns. destruct (mapM _ cs); simpl; [done|]. by intros [= <-].
Qed.

Lemma elem_of_with_column c x cols : c ∈ with_column x cols ↔ c = x ∨ c ∈ cols.
Proof.
  unfold with_column. case_bool_decide as Hx.
  - split; [auto|]. by intros [->|?].
  - rewrite elem_of_app, list_elem_of_singleton. tauto.
Qed.

End prepared.

(** X15. The training script cannot get past its balancing step without
    a normal row: when no row of the cleaned frame carries the label
    "None" (an empty frame included), the run stops with the encoder's
    [ValueError] for the unseen label; so every completed preparation has
    "None" in its label vocabulary. *)
Theorem training_needs_normal_rows `{!Numeric} `{!Random} `{!Learn}
    (global : rng) (df : DataFrame) :
  (∀ df' X,
     preprocess df = inr df' →
     drop_columns ["vehicle_id"; "timestamp"; "failure_type"] df' = inr X →
     "None" ∉ label_of <$> rows df' →
     prepare global df = inl ValueError)
  ∧ (∀ p, prepare global df = inr p →
          "None" ∈ classes_ (pre_encoder p)
          ∧ ∃ df', preprocess df = inr df' ∧ "None" ∈ label_of <$> rows df').
Proof.
  split.
  - intros df' X E1 E2 Hnone. unfold prepare. rewrite E1. simpl. rewrite E2. simpl.
    destruct (le_fit_transform_total (label_of <$> rows df')) as [codes ->]. simpl.
    rewrite balance_without_none; [done|]. simpl. by rewrite elem_of_np_unique.
  - intros p (df' & X & codes & E1 & _ & E3 & _ & E4)%prepare_inv.
    pose proof (balance_needs_none _ _ _ _ _ E4) as Hin.
    split; [done|]. exists df'. split; [done|].
    destruct (le_fit_transform_total (label_of <$> rows df')) as [codes' E3'].
    rewrite E3' in E3. injection E3 as Hle Hsame. rewrite <- Hle in Hin.
    simpl in Hin.
    exact (proj1 (elem_of_np_unique _ _) Hin).
Qed.

Lemma training_needs_normal_rows_witness :
  @prepare exact_arith counter_random toy_learn (0 : @rng counter_random)
    labelled_frame = inl ValueError.
Proof.
  destruct (@preprocess exact_arith labelled_frame) as [e|df'] eqn:E1;
    [vm_compute in E1; discriminate E1|].
  destruct (@drop_columns ["vehicle_id"; "timestamp"; "failure_type"] df')
    as [e|X] eqn:E2.
  { pose proof E1 as E1'. vm_compute in E1'. injection E1' as <-.
    vm_compute in E2. discriminate E2. }
  apply (proj1 (@training_needs_normal_rows exact_arith counter_random toy_learn
                  (0 : @rng counter_random) labelled_frame) df' X E1 E2).
  pose proof E1 as E1'. vm_compute in E1'. injection E1' as <-.
  vm_compute. intros Hin.
  repeat (apply elem_of_cons in Hin as [Hin|Hin]; [discriminate Hin|]).
  by apply elem_of_nil in Hin.
Defined.

(** X16. The training columns of a completed preparation are the columns
    of the file other than [vehicle_id], [timestamp] and [failure_type],
    together with the two derived columns; so for a reading that has every
    sensor column of the file, [predict_failure] zero-fills nothing: each
    position of the reindexed vector holds the value of the engineered
    reading. *)
Theorem training_columns_schema `{!Numeric} `{!Random} `{!Learn}
    (global : rng) (df : DataFrame) (p : prepared) :
  prepare global df = inr p →
  (∀ c, c ∈ pre_training_columns p ↔
        (c ∉ ["vehicle_id"; "timestamp"; "failure_type"])
        ∧ (c ∈ columns df ∨ c = "temp_pressure_ratio" ∨ c = "total_brake_wear"))
  ∧ ∀ data : dict,
      (∀ c, c ∈ columns df →
            c ∉ ["vehicle_id"; "timestamp"; "failure_type"] →
            is_Some (data !! c)) →
      ∀ i c v,
        reindex (engineer data) (pre_training_columns p) (PNum (Fin 0)) !! i
        = Some (c, v) →
        engineer data !! c = Some v.
Proof.
  intros (df' & X & codes & E1 & E2 & _ & Hcols & _)%prepare_inv.
  apply preprocess_rows in E1 as (_ & Hc' & _).
  apply drop_columns_columns in E2.
  assert (Hmem : ∀ c, c ∈ pre_training_columns p ↔
            (c ∉ ["vehicle_id"; "timestamp"; "failure_type"])
            ∧ (c ∈ columns df ∨ c = "temp_pressure_ratio"
               ∨ c = "total_brake_wear")).
  { intros c. rewrite Hcols, E2, list_elem_of_filter, Hc'.
    rewrite !elem_of_with_column. tauto. }
  split; [exact Hmem|].
  intros data Hdata i c v. unfold reindex. rewrite list_lookup_fmap.
  destruct (pre_training_columns p !! i) as [c'|] eqn:Hi; simpl; [|done].
  intros [= -> <-]. apply list_elem_of_lookup_2, Hmem in Hi as [Hkeep Hc].
  assert (Hsome : is_Some (engineer data !! c)).
  { destruct (decide (c = "temp_pressure_ratio")) as [->|Hne1];
      [apply engineer_derived|].
    destruct (decide (c = "total_brake_wear")) as [->|Hne2];
      [apply engineer_derived|].
    rewrite engineer_other by done. apply Hdata; [|done].
    by destruct Hc as [?|[?|?]]. }
  destruct Hsome as [v ->]. done.
Qed.

Lemma training_columns_schema_witness :
  ∃ p,
    @prepare exact_arith counter_random toy_learn (0 : @rng counter_random)
      toy_frame = inr p
    ∧ "total_brake_wear" ∈ pre_training_columns p
    ∧ "vehicle_id" ∉ pre_training_columns p.
Proof.
  destruct (@prepare exact_arith counter_random toy_learn
              (0 : @rng counter_random) toy_frame) as [e|p] eqn:E;
    [vm_compute in E; discriminate E|].
  exists p. split; [reflexivity|].
  destruct (@training_columns_schema exact_arith counter_random toy_learn
              (0 : @rng counter_random) toy_frame p E) as [Hmem _].
  split.
  - apply Hmem. split; [|by right; right].
    intros Hin. repeat (apply elem_of_cons in Hin as [Hin|Hin]; [discriminate Hin|]).
    by apply elem_of_nil in Hin.
  - intros [Hin _]%Hmem. apply Hin, list_elem_of_here.
Defined.

(** * Loading the artifacts *)

Section loading.
Context `{!Pickle}.
Variable fs : files.

Lemma load_file_missing {A} (loads : string → option A) path e :
  load_file fs loads path = inl e →
  (e = FileNotFoundError path ∧ fs !! path = None)
  ∨ (e = UnpicklingError path ∧ is_Some (fs !! path)).
Proof.
  unfold load_file. destruct (fs !! path) as [bytes|]; [|intros [= <-]; by left].
  destruct (loads bytes); [done|]. intros [= <-]. right. eauto.
Qed.

Lemma load_file_present {A} (loads : string → option A) path x :
  load_file fs loads path = inr x → is_Some (fs !! path).
Proof. unfold load_file. destruct (fs !! path); [eauto|done]. Qed.

End loading.

(** X17. [load_model_assets] is all or nothing: it returns either the
    four objects or four [None], never a partial set.  It returns the four
    [None] exactly when the first file that fails is missing; a file that
    is there but cannot be unpickled makes the call raise instead, even if
    a later file is missing.  Whenever it returns and one of the four
    files is missing, [predict_failure] answers "Model not loaded". *)
Theorem load_model_assets_all_or_nothing `{!Pickle} `{!Numeric} (fs : files) :
  (∀ a, load_model_assets fs = inr a →
        a = nothing_loaded
        ∨ (∃ m sc enc cols,
             a = {| model := Some m; scaler := Some sc; encoder := Some enc;
                    training_columns := Some cols |}
             ∧ ∀ path, path ∈ pickle_files → is_Some (fs !! path)))
  ∧ (fs !! "model.pkl" = None → load_model_assets fs = inr nothing_loaded)
  ∧ (∀ bytes, fs !! "model.pkl" = Some bytes → loads_model bytes = None →
              load_model_assets fs = inl (UnpicklingError "model.pkl"))
  ∧ (∀ a data path,
       load_model_assets fs = inr a → path ∈ pickle_files → fs !! path = None →
       predict_failure a data = inr ("Model not loaded", Fin 0, None)).
Proof.
  assert (Hall : ∀ a, load_model_assets fs = inr a →
            a = nothing_loaded
            ∨ (∃ m sc enc cols,
                 a = {| model := Some m; scaler := Some sc; encoder := Some enc;
                        training_columns := Some cols |}
                 ∧ ∀ path, path ∈ pickle_files → is_Some (fs !! path))).
  { intros a. unfold load_model_assets.
    destruct (load_file fs loads_model "model.pkl") as [e1|m] eqn:E1; simpl.
    { destruct e1; [intros [= <-]; by left|done]. }
    destruct (load_file fs loads_scaler "scaler.pkl") as [e2|sc] eqn:E2; simpl.
    { destruct e2; [intros [= <-]; by left|done]. }
    destruct (load_file fs loads_encoder "encoder.pkl") as [e3|enc] eqn:E3; simpl.
    { destruct e3; [intros [= <-]; by left|done]. }
    destruct (load_file fs loads_columns "training_columns.pkl") as [e4|cols] eqn:E4;
      simpl.
    { destruct e4; [intros [= <-]; by left|done]. }
    intros [= <-]. right. exists m, sc, enc, cols. split; [done|].
    apply load_file_present in E1, E2, E3, E4.
    intros path Hpath. unfold pickle_files in Hpath.
    repeat (apply elem_of_cons in Hpath as [->|Hpath]; [done|]).
    by apply elem_of_nil in Hpath. }
  split; [exact Hall|]. split; [|split].
  - intros Hnone. unfold load_model_assets, load_file. by rewrite Hnone.
  - intros bytes Hsome Hbad. unfold load_model_assets, load_file.
    by rewrite Hsome, Hbad.
  - intros a data path Hload Hpath Hnone.
    destruct (Hall a Hload) as [->|(m & sc & enc & cols & _ & Hpresent)].
    + reflexivity.
    + destruct (Hpresent path Hpath) as [bytes Hbytes]. congruence.
Qed.

Lemma load_model_assets_all_or_nothing_witness :
  let fs : files := {[ "model.pkl" := "m"; "scaler.pkl" := "s" ]} in
  @load_model_assets demo_pickle fs = inr nothing_loaded
  ∧ ∀ data, @predict_failure exact_arith nothing_loaded data
            = inr ("Model not loaded", Fin 0, None).
Proof.
  intros fs. split; [reflexivity|]. intros data.
  apply (proj2 (proj2 (proj2
           (@load_model_assets_all_or_nothing demo_pickle exact_arith fs)))
           nothing_loaded data "encoder.pkl").
  - reflexivity.
  - unfold pickle_files. apply list_elem_of_further, list_elem_of_further,
      list_elem_of_here.
  - reflexivity.
Defined.

(** * The mobile number pattern *)

Section regex_facts.

Lemma lang_Void l : ¬ lang Void l.
Proof. inversion 1. Qed.

Lemma lang_Eps l : lang Eps l ↔ l = [].
Proof. split; [by inversion 1|intros ->; constructor]. Qed.

Lemma lang_Class p l : lang (Class p) l ↔ ∃ c, l = [c] ∧ p c = true.
Proof.
  split; [inversion 1; eauto|]. intros (c & -> & Hc). by constructor.
Qed.

Lemma lang_Cat r1 r2 l :
  lang (Cat r1 r2) l ↔ ∃ l1 l2, l = (l1 ++ l2)%list ∧ lang r1 l1 ∧ lang r2 l2.
Proof.
  split; [inversion 1; eauto|]. intros (l1 & l2 & -> & H1 & H2). by constructor.
Qed.

Lemma lang_Alt r1 r2 l : lang (Alt r1 r2) l ↔ lang r1 l ∨ lang r2 l.
Proof.
  split; [inversion 1; auto|]. intros [?|?]; [by apply lang_alt_l|by apply lang_alt_r].
Qed.

Lemma lang_Star r l :
  lang (Star r) l ↔
  l = [] ∨ ∃ c l1 l2, l = (c :: l1 ++ l2)%list ∧ lang r (c :: l1) ∧ lang (Star r) l2.
Proof.
  split; [inversion 1; eauto 10|].
  intros [->|(c & l1 & l2 & -> & H1 & H2)]; [constructor|by constructor].
Qed.

Lemma nullable_spec r : nullable r = true ↔ lang r [].
Proof.
  induction r as [| |p|r1 IH1 r2 IH2|r1 IH1 r2 IH2|r IH]; simpl.
  - split; [done|]. by intros ?%lang_Void.
  - split; [constructor|done].
  - split; [done|]. by intros (c & ? & _)%lang_Class.
  - rewrite andb_true_iff, IH1, IH2, lang_Cat. split.
    + intros [? ?]. by exists [], [].
    + intros (l1 & l2 & Hl & ? & ?). symmetry in Hl.
      apply app_eq_nil in Hl as [? ?]. by subst.
  - by rewrite orb_true_iff, IH1, IH2, lang_Alt.
  - split; [constructor|done].
Qed.

Lemma deriv_spec c r l : lang (deriv c r) l ↔ lang r (c :: l).
Proof.
  revert l. induction r as [| |p|r1 IH1 r2 IH2|r1 IH1 r2 IH2|r IH]; intros l; simpl.
  - split; by intros ?%lang_Void.
  - split; [by intros ?%lang_Void|]. by intros [=]%lang_Eps.
  - rewrite lang_Class. destruct (p c) eqn:Hp.
    + rewrite lang_Eps. split; [intros ->; eauto|]. by intros (c' & [= <- <-] & _).
    + split; [by intros ?%lang_Void|]. intros (c' & [= <- ->] & ?). congruence.
  - assert (Hcat : lang (Cat (deriv c r1) r2) l ↔
              ∃ l1 l2, l = (l1 ++ l2)%list ∧ lang r1 (c :: l1) ∧ lang r2 l2).
    { rewrite lang_Cat. by setoid_rewrite IH1. }
    rewrite (lang_Cat r1 r2). destruct (nullable r1) eqn:Hn.
    + rewrite lang_Alt, Hcat, IH2. apply nullable_spec in Hn. split.
      * intros [(l1 & l2 & -> & ? & ?)|?].
        -- by exists (c :: l1), l2.
        -- by exists [], (c :: l).
      * intros ([|c' l1] & l2 & Hl & H1 & H2); simpl in Hl.
        -- right. by subst.
        -- injection Hl as <- ->. left. eauto.
    + rewrite Hcat. split.
      * intros (l1 & l2 & -> & ? & ?). by exists (c :: l1), l2.
      * intros ([|c' l1] & l2 & Hl & H1 & H2); simpl in Hl.
        -- apply nullable_spec in H1. congruence.
        -- injection Hl as <- ->. eauto.
  - by rewrite !lang_Alt, IH1, IH2.
  - rewrite lang_Cat, (lang_Star r (c :: l)). split.
    + intros (l1 & l2 & -> & H1%IH & H2). right. by exists c, l1, l2.
    + intros [[=]|(c' & l1 & l2 & [= <- ->] & H1 & H2)].
      exists l1, l2. by rewrite IH.
Qed.

Lemma fullmatch_spec r l : fullmatch r l = true ↔ lang r l.
Proof.
  revert r. induction l as [|c l IH]; intros r; simpl.
  - apply nullable_spec.
  - by rewrite IH, deriv_spec.
Qed.

(** The languages of the counted repetitions of a character class. *)
Lemma lang_times p n l :
  lang (times n (Class p)) l ↔ length l = n ∧ Forall (λ c, p c = true) l.
Proof.
  revert l. induction n as [|n IH]; intros l; simpl.
  - rewrite lang_Eps. split; [by intros ->|]. by intros [?%nil_length_inv _].
  - rewrite lang_Cat. split.
    + intros (l1 & l2 & -> & (c & -> & Hc)%lang_Class & [Hlen Hall]%IH).
      simpl. split; [by rewrite Hlen|by constructor].
    + destruct l as [|c l]; [by intros [? _]|]. simpl.
      intros [[= Hlen] Hall]. inversion Hall as [|? ? Hc Hl]; subst.
      exists [c], l. split; [done|]. split; [by apply lang_Class; eauto|].
      by apply IH.
Qed.

Lemma lang_upto p n l :
  lang (upto n (Class p)) l ↔ (length l ≤ n)%nat ∧ Forall (λ c, p c = true) l.
Proof.
  revert l. induction n as [|n IH]; intros l; simpl.
  - rewrite lang_Eps. split; [by intros ->|].
    intros [Hlen _]. apply nil_length_inv. lia.
  - unfold opt. rewrite lang_Alt, lang_Eps, lang_Cat. split.
    + intros [->|(l1 & l2 & -> & (c & -> & Hc)%lang_Class & [Hlen Hall]%IH)].
      * simpl. split; [lia|constructor].
      * simpl. split; [lia|by constructor].
    + destruct l as [|c l]; [by left|]. simpl.
      intros [Hlen Hall]. inversion Hall as [|? ? Hc Hl]; subst. right.
      exists [c], l. split; [done|]. split; [by apply lang_Class; eauto|].
      apply IH. split; [lia|done].
Qed.

Lemma lang_between p m n l :
  (m ≤ n)%nat →
  lang (between m n (Class p)) l ↔
  (m ≤ length l ≤ n)%nat ∧ Forall (λ c, p c = true) l.
Proof.
  intros Hmn. unfold between. rewrite lang_Cat. split.
  - intros (l1 & l2 & -> & [Hl1 Ha1]%lang_times & [Hl2 Ha2]%lang_upto).
    rewrite length_app. split; [lia|by apply Forall_app].
  - intros [Hlen Hall]. exists (take m l), (drop m l).
    split; [by rewrite take_drop|]. split.
    + apply lang_times. split; [rewrite length_take; lia|by apply Forall_take].
    + apply lang_upto. split; [rewrite length_drop; lia|by apply Forall_drop].
Qed.

End regex_facts.

Section mobile.

Lemma is_plus_spec c : is_plus c = true ↔ c = "+"%char.
Proof. unfold is_plus. apply Ascii.eqb_eq. Qed.

Lemma lang_mobile l :
  lang mobile_regex l ↔
  ∃ sign digits,
    l = (sign ++ digits)%list
    ∧ (sign = [] ∨ sign = ["+"%char])
    ∧ (11 ≤ length digits ≤ 14)%nat
    ∧ Forall (λ c, is_digit c = true) digits.
Proof.
  unfold mobile_regex, opt. rewrite lang_Cat. split.
  - intros (sign & rest & -> & Hsign & Hrest).
    apply lang_Cat in Hrest as (a & b & -> & Ha & Hb).
    apply lang_between in Ha as [Hla Ha]; [|lia].
    apply lang_times in Hb as [Hlb Hb].
    exists sign, (a ++ b)%list. split; [done|]. split.
    + apply lang_Alt in Hsign as [->%lang_Eps|(c & -> & ->%is_plus_spec)%lang_Class];
        auto.
    + rewrite length_app. split; [lia|by apply Forall_app].
  - intros (sign & digits & -> & Hsign & Hlen & Hall).
    exists sign, digits. split; [done|]. split.
    + apply lang_Alt. destruct Hsign as [->| ->]; [left; constructor|right].
      by constructor.
    + apply lang_Cat.
      exists (take (length digits - 10) digits), (drop (length digits - 10) digits).
      split; [by rewrite take_drop|]. split.
      * apply lang_between; [lia|].
        split; [rewrite length_take; lia|by apply Forall_take].
      * apply lang_times. split; [rewrite length_drop; lia|by apply Forall_drop].
Qed.

Lemma match_to_end_spec r x :
  match_to_end r x = true ↔
  ∃ body nl,
    String.list_ascii_of_string x = (body ++ nl)%list
    ∧ (nl = [] ∨ nl = [newline])
    ∧ lang r body.
Proof.
  unfold match_to_end. set (l := String.list_ascii_of_string x).
  rewrite orb_true_iff, fullmatch_spec. split.
  - intros [Hfull|Hnl].
    + exists l, []. rewrite app_nil_r. auto.
    + destruct (reverse l) as [|c before] eqn:Hrev; [done|].
      apply andb_true_iff in Hnl as [->%Ascii.eqb_eq Hbody%fullmatch_spec].
      exists (reverse before), [newline]. split; [|auto].
      rewrite <- (reverse_involutive l), Hrev. by rewrite reverse_cons.
  - intros (body & nl & Hl & [->| ->] & Hbody).
    + left. rewrite app_nil_r in Hl. by rewrite Hl.
    + right. rewrite Hl, reverse_app. simpl.
      rewrite ?Ascii.eqb_refl, reverse_involutive. simpl. by apply fullmatch_spec.
Qed.

Lemma mobile_match_spec x :
  match_to_end mobile_regex x = true ↔
  ∃ sign digits nl,
    String.list_ascii_of_string x = (sign ++ digits ++ nl)%list
    ∧ (sign = [] ∨ sign = ["+"%char])
    ∧ (11 ≤ length digits ≤ 14)%nat
    ∧ Forall (λ c, is_digit c = true) digits
    ∧ (nl = [] ∨ nl = [newline]).
Proof.
  rewrite match_to_end_spec. split.
  - intros (body & nl & Hl & Hnl & (sign & digits & -> & Hs & Hlen & Hd)%lang_mobile).
    exists sign, digits, nl. by rewrite <- app_assoc in Hl.
  - intros (sign & digits & nl & Hl & Hs & Hlen & Hd & Hnl).
    exists (sign ++ digits)%list, nl. rewrite <- app_assoc. split; [done|].
    split; [done|]. apply lang_mobile. eauto 10.
Qed.

Lemma remove_spaces_no_space x :
  " "%char ∉ String.list_ascii_of_string (remove_spaces x).
Proof.
  induction x as [|c x IH]; simpl; [apply not_elem_of_nil|].
  destruct (Ascii.eqb_spec c " "%char) as [->|Hne]; [done|]. simpl.
  apply not_elem_of_cons. split; [congruence|done].
Qed.

End mobile.

(** X18. Read as Python reads it, the mobile pattern of the Sign Up form
    accepts exactly an optional [+] followed by 11 to 14 decimal digits
    (a country code of one to four digits and ten more), with nothing else
    but at most one final newline; a plain ten-digit number is rejected. *)
Theorem mobile_pattern_accepts (x : string) :
  (match_to_end mobile_regex x = true ↔
   ∃ sign digits nl,
     String.list_ascii_of_string x = (sign ++ digits ++ nl)%list
     ∧ (sign = [] ∨ sign = ["+"%char])
     ∧ (11 ≤ length digits ≤ 14)%nat
     ∧ Forall (λ c, is_digit c = true) digits
     ∧ (nl = [] ∨ nl = [newline]))
  ∧ (Forall (λ c, is_digit c = true) (String.list_ascii_of_string x) →
     (String.length x ≤ 10)%nat → match_to_end mobile_regex x = false).
Proof.
  split; [apply mobile_match_spec|].
  intros Hall Hlen. apply not_true_is_false.
  intros (sign & digits & nl & Hl & Hs & Hd & _ & _)%mobile_match_spec.
  assert (Hlen' : length (String.list_ascii_of_string x) = String.length x).
  { clear. induction x as [|c x IH]; simpl; [done|]. by rewrite IH. }
  rewrite Hl, !length_app in Hlen'. lia.
Qed.

Lemma mobile_pattern_accepts_witness :
  match_to_end mobile_regex "9876543210" = false
  ∧ match_to_end mobile_regex "+919876543210" = true.
Proof.
  split.
  - apply (proj2 (mobile_pattern_accepts "9876543210")).
    + repeat constructor.
    + simpl. lia.
  - reflexivity.
Defined.

(** X19. With an engine that reads the mobile pattern this way, an account
    is only created when the number entered, once its spaces are removed,
    is an optional [+] and 11 to 14 digits (and at most a final newline);
    that cleaned number, which holds no space, is what the account
    stores. *)
Theorem signup_mobile_shape `{!Hashlib} `{!Re} (s s' : session)
    (full email mobile username password password2 : string) :
  (∀ x, re_match mobile_pattern x = match_to_end mobile_regex x) →
  signup_submit s full email mobile username password password2
  = (s', AccountCreated) →
  (Accounts.mobile <$> ss_users s' !! username) = Some (Some (remove_spaces mobile))
  ∧ (" "%char ∉ String.list_ascii_of_string (remove_spaces mobile))
  ∧ ∃ sign digits nl,
      String.list_ascii_of_string (remove_spaces mobile)
      = (sign ++ digits ++ nl)%list
      ∧ (sign = [] ∨ sign = ["+"%char])
      ∧ (11 ≤ length digits ≤ 14)%nat
      ∧ Forall (λ c, is_digit c = true) digits
      ∧ (nl = [] ∨ nl = [newline]).
Proof.
  intros Hre (_ & _ & _ & _ & _ & Hmobile & ->)%signup_created.
  split; [simpl; by rewrite lookup_insert_eq|].
  split; [apply remove_spaces_no_space|].
  rewrite Hre in Hmobile. by apply mobile_match_spec.
Qed.

Lemma signup_mobile_shape_witness :
  let r := @signup_submit toy_hash mobile_re fresh "Ann Lee" "ann@example.org"
             "+91 98765 43210" "ann" "s3cret" "s3cret" in
  r.2 = AccountCreated
  ∧ (Accounts.mobile <$> ss_users r.1 !! "ann") = Some (Some "+919876543210")
  ∧ (@signup_submit toy_hash mobile_re fresh "Ann Lee" "ann@example.org"
       "98765 43210" "ann" "s3cret" "s3cret").2 = InvalidMobile.
Proof.
  intros r. split; [reflexivity|]. split; [|reflexivity].
  refine (proj1 (@signup_mobile_shape toy_hash mobile_re fresh r.1 "Ann Lee"
                   "ann@example.org" "+91 98765 43210" "ann" "s3cret" "s3cret"
                   _ _)).
  - intros x. reflexivity.
  - reflexivity.
Defined.

(** * A rear wear that is not a number *)

Section rear_wear.
Variables (data : dict) (front : number) (rear : pyval).
Hypothesis Hfront : data !! "brake_pad_wear_mm_front" = Some (PNum front).
Hypothesis Hrear : data !! "brake_pad_wear_mm_rear" = Some rear.
Hypothesis Hnan : ∀ n, rear ≠ PNum n.

Let brake_rule : cond :=
  Either (Below "brake_pad_wear_mm_front" 3)
         (BelowDefault "brake_pad_wear_mm_rear" 3 3).

Lemma brake_rule_eval :
  eval_cond data brake_rule
  = if num_lt front (Fin 3) then inr true else inl TypeError.
Proof.
  unfold brake_rule. cbn [eval_cond]. unfold getitem, get. rewrite Hfront, Hrear.
  cbn [mbind result_bind py_lt default].
  destruct (num_lt front (Fin 3)); [reflexivity|]. unfold id.
  destruct rear as [n| |]; [by destruct (Hnan n)|reflexivity|reflexivity].
Qed.

Lemma brake_rule_eval_without :
  eval_cond (delete "brake_pad_wear_mm_rear" data) brake_rule
  = inr (num_lt front (Fin 3)).
Proof.
  unfold brake_rule. cbn [eval_cond]. unfold getitem, get.
  rewrite (lookup_delete_ne data "brake_pad_wear_mm_rear" "brake_pad_wear_mm_front")
    by done.
  rewrite Hfront, lookup_delete_eq.
  cbn [mbind result_bind py_lt default].
  destruct (num_lt front (Fin 3)); [done|]. by vm_compute.
Qed.

End rear_wear.

Lemma prefix_agree_eval (data data' : dict) rules :
  (∀ r, r ∈ rules → eval_cond data r.1 = eval_cond data' r.1) →
  fired_alerts data (evaluated_prefix data rules)
  = fired_alerts data' (evaluated_prefix data' rules).
Proof.
  induction rules as [|r rs IH]; intros Heq; [done|]. simpl.
  pose proof (Heq r (list_elem_of_here _ _)) as Hr.
  unfold evaluates. rewrite <- Hr.
  destruct (eval_cond data r.1) as [e|b] eqn:E; [done|].
  rewrite !fired_alerts_cons. unfold fires. rewrite <- Hr, E. f_equal.
  apply IH. intros r' Hr'. apply Heq. by apply list_elem_of_further.
Qed.

(** X20. A rear brake wear that is present but not a number is never
    looked at when the front wear is already below 3: the brake alert is
    raised and the result is what it would be without the rear entry.
    When the front wear is not below 3, the comparison of the rear value
    raises and evaluation stops at the brake rule: only the mileage,
    engine, battery and oil alerts can be returned, and the five later
    rules are skipped. *)
Theorem non_numeric_rear_wear (data : dict) (front : number) (rear : pyval) :
  data !! "brake_pad_wear_mm_front" = Some (PNum front) →
  data !! "brake_pad_wear_mm_rear" = Some rear →
  (∀ n, rear ≠ PNum n) →
  (below front 3 →
     check_custom_rules data
     = check_custom_rules (delete "brake_pad_wear_mm_rear" data))
  ∧ (¬ below front 3 →
     ∀ l, l ∈ check_custom_rules data →
          l ∈ [ "Maintenance Due / High Mileage Warning"; "Engine Overheating";
                "Battery Failure"; "Low Oil Pressure Warning" ]).
Proof.
  intros Hfront Hrear Hnan. split.
  - intros Hlow%num_lt_below. rewrite !check_custom_rules_table.
    apply prefix_agree_eval. intros r Hr. unfold threshold_table in Hr.
    repeat (apply elem_of_cons in Hr as [->|Hr];
            [first [ by (apply eval_cond_agree; intros k ->%list_elem_of_singleton;
                         rewrite lookup_delete_ne)
                   | simpl fst;
                     rewrite (brake_rule_eval data front rear Hfront Hrear Hnan),
                       (brake_rule_eval_without data front Hfront), Hlow;
                     reflexivity ]|]).
    by apply elem_of_nil in Hr.
  - intros Hhigh l Hl. rewrite check_custom_rules_table in Hl.
    destruct (evaluated_prefix_take data threshold_table) as (n & Hn & Hok & _).
    assert (Hle : (n ≤ 4)%nat).
    { destruct (decide (n ≤ 4)%nat) as [|Hgt]; [done|]. exfalso.
      assert (Hin : (Either (Below "brake_pad_wear_mm_front" 3)
                       (BelowDefault "brake_pad_wear_mm_rear" 3 3),
                     "Brake Pads Critically Worn") ∈ take n threshold_table).
      { apply (list_elem_of_lookup_2 _ 4). rewrite lookup_take_lt by lia. done. }
      apply Hok in Hin. unfold evaluates in Hin. simpl fst in Hin.
      rewrite (brake_rule_eval data front rear Hfront Hrear Hnan) in Hin.
      destruct (num_lt front (Fin 3)) eqn:E; [|done].
      apply Hhigh. by apply num_lt_below. }
    rewrite Hn in Hl. apply elem_of_fired_alerts in Hl as (c & Hin & _).
    assert (Hin4 : (c, l) ∈ take 4 threshold_table).
    { eapply elem_of_sublist; [exact Hin|].
      replace n with (n `min` 4)%nat by lia. rewrite <- take_take.
      apply sublist_take. }
    simpl in Hin4.
    repeat (apply elem_of_cons in Hin4 as [Hin4|Hin4];
            [injection Hin4 as -> ->; set_solver|]).
    by apply elem_of_nil in Hin4.
Qed.

Lemma non_numeric_rear_wear_witness :
  let data := <["brake_pad_wear_mm_rear" := PStr "n/a"]> all_thresholds in
  check_custom_rules data
  = check_custom_rules (delete "brake_pad_wear_mm_rear" data).
Proof.
  intros data.
  refine (proj1 (non_numeric_rear_wear data (Fin 2) (PStr "n/a") _ _ _) _).
  - reflexivity.
  - reflexivity.
  - intros n. discriminate.
  - simpl. reflexivity.
Defined.

(** X21. A password whose hash differs from the hash stored at sign-up is
    refused: the Log In form answers that the credentials are invalid (or
    missing) and leaves the session as it was, whoever is logged in. *)
Theorem wrong_password_refused `{!Hashlib} `{!Re} (s s' : session)
    (full email mobile username password password2 attempt : string) :
  signup_submit s full email mobile username password password2
  = (s', AccountCreated) →
  hash_password attempt ≠ hash_password password →
  let r := login_submit s' username attempt in
  r.1 = s' ∧ (r.2 = InvalidCredentials ∨ r.2 = MissingCredentials).
Proof.
  intros (_ & _ & _ & _ & _ & _ & ->)%signup_created Hhash. simpl.
  unfold login_submit.
  destruct (negb _); [auto|].
  unfold authenticate. simpl. rewrite lookup_insert_eq. simpl.
  destruct (String.eqb_spec (hash_password password) (hash_password attempt));
    [congruence|auto].
Qed.

Lemma wrong_password_refused_witness :
  let s := (@signup_submit toy_hash accept_all fresh "Ann Lee" "ann@example.org"
              "+91 98765 43210" "ann" "s3cret" "s3cret").1 in
  (@login_submit toy_hash s "ann" "guess").1 = s
  ∧ (@login_submit toy_hash s "ann" "guess").2 = InvalidCredentials.
Proof.
  intros s. split; [|reflexivity].
  refine (proj1 (@wrong_password_refused toy_hash accept_all fresh s "Ann Lee"
                   "ann@example.org" "+91 98765 43210" "ann" "s3cret" "s3cret"
                   "guess" _ _)).
  - reflexivity.
  - discriminate.
Defined.
